(** * Traffic signal controller: shallow embedding and specification

    Embedding of [src/traffic-platform/src/signals/signal_controller.py]
    (class [SignalController]): the per-signal state records, emergency
    override and restoration, timing updates, green-corridor coordination,
    one step of the background monitor loop, the status queries, and the
    adaptive and emergency-priority timing algorithms with their dispatcher
    [optimize_signal_timing].

    Modelling choices:
    - [self.signal_states] (a dict keyed by signal id) is a
      [gmap string SignalState]; every operation threads it explicitly and
      returns its Python result dict together with the new map.
    - Timestamps ([datetime]) are integers counting microseconds since the
      Unix epoch.  Python's [datetime] only covers years 1..9999: adding a
      [timedelta] that leaves this range raises [OverflowError], which the
      [try]/[except] of each public method turns into a failure dict.  The
      source reads [datetime.utcnow()] several times inside one call; the
      model reads the clock once per call ([now]), except in the monitor
      loop, where the loop's [current_time] and the later clock reading of
      the transition are kept apart.
    - [timedelta.total_seconds()] is a float; elapsed times are compared
      exactly, in microseconds.
    - Writes to Redis ([_update_redis_state], [_log_signal_event]) swallow
      their own errors and change no state of the controller, so they are
      left out; [_schedule_signal_override] reports a Redis failure to its
      caller, so whether its [setex] succeeds is a parameter.
    - The optimisation algorithms read values from request dicts; numbers
      are compared exactly (a finite float is the rational it denotes), and
      the float arithmetic of [_webster_algorithm] is left abstract. *)

From Stdlib Require Import ZArith String Bool List Lia Sorted QArith.
From stdpp Require Import base gmap strings list fin_maps pretty.

Open Scope Z_scope.

(** ** Data model *)

(** [@dataclass class SignalTiming] *)
Record SignalTiming := mkTiming {
  red_duration : Z;
  yellow_duration : Z;
  green_duration : Z;
  cycle_time : Z
}.

(** [self.default_timing = SignalTiming()] *)
Definition default_timing : SignalTiming :=
  mkTiming 45 5 30 80.

(** The dict that [emergency_override] stores in [normal_timing] before the
    first override: [{'state', 'remaining_time', 'state_start_time'}]. *)
Record Snapshot := mkSnapshot {
  snap_state : string;
  snap_remaining_time : Z;
  snap_state_start_time : Z
}.

(** [normal_timing: Dict] holds one of two different dicts: [asdict] of a
    [SignalTiming] (set on creation and by [update_timing]) or the
    pre-override snapshot.  [None] is [option]'s [None]; both dicts are
    non-empty, hence truthy. *)
Inductive NormalTiming :=
| NTTiming (t : SignalTiming)
| NTSnapshot (s : Snapshot).

(** [@dataclass class SignalState]; [remaining_time] is the planned
    duration of the current phase, in seconds. *)
Record SignalState := mkState {
  signal_id : string;
  current_state : string;
  state_start_time : Z;
  remaining_time : Z;
  is_emergency_override : bool;
  override_reason : string;
  normal_timing : option NormalTiming
}.

(** ** Time *)

Definition us_per_s : Z := 1000000.

(** [datetime.min] and [datetime.max], in microseconds since 1970-01-01. *)
Definition datetime_min_us : Z := -62135596800000000.
Definition datetime_max_us : Z := 253402300799999999.

(** [t + timedelta(seconds=d)] for an [int] [d]: [None] is the
    [OverflowError] raised when the result leaves [datetime]'s range (a [d]
    too large for [timedelta] itself also raises it; for [t] in range that
    case is contained in this one, see [add_seconds_timedelta_overflow]). *)
Definition add_seconds (t d : Z) : option Z :=
  let r := t + d * us_per_s in
  if (datetime_min_us <=? r) && (r <=? datetime_max_us) then Some r else None.

(** The constructor [timedelta(seconds=d)] for an [int] [d]: it normalises
    to [days = d // 86400], converts [days] to a C [int], then checks
    [|days| <= 999999999]; [Some] is the message of the [OverflowError] it
    raises. *)
Definition timedelta_seconds_error (d : Z) : option string :=
  let days := d / 86400 in
  if negb ((-2147483648 <=? days) && (days <=? 2147483647)) then
    Some "Python int too large to convert to C int"
  else if negb ((-999999999 <=? days) && (days <=? 999999999)) then
    Some ("days=" ++ pretty days ++ "; must have magnitude <= 999999999")%string
  else None.

(** [str(e)] for the [OverflowError] [e] of [t + timedelta(seconds=d)]:
    the constructor's message when it raises, else the addition's. *)
Definition overflow_error (d : Z) : string :=
  match timedelta_seconds_error d with
  | Some e => e
  | None => "date value out of range"
  end.

(** ** Results *)

(** A Python result dict that is either [{'success': True, ...}] or
    [{'success': False, 'error': ...}]. *)
Inductive outcome (A : Type) :=
| Success (a : A)
| Failure (error : string).
Arguments Success {A} a.
Arguments Failure {A} error.

Definition is_success {A} (o : outcome A) : bool :=
  match o with Success _ => true | Failure _ => false end.

(** Payload of [emergency_override]'s success dict. *)
Record OverrideInfo := mkOverrideInfo {
  ov_signal_id : string;
  ov_new_state : string;
  ov_duration : Z;
  ov_reason : string;
  ov_start_time : Z;
  ov_estimated_end_time : Z
}.

(** Payload of [restore_normal_operation]'s success dict. *)
Record RestoreInfo := mkRestoreInfo {
  rs_signal_id : string;
  rs_new_state : string;
  rs_restoration_time : Z
}.

(** Values of the [timing_config] dict: [isinstance(v, int)] holds for
    [int] and for [bool] (a subclass of [int]); [POther] is any other
    Python value (str, float, None, ...). *)
Inductive PyVal :=
| PInt (z : Z)
| PBool (b : bool)
| POther.

Definition py_int_value (v : PyVal) : option Z :=
  match v with
  | PInt z => Some z
  | PBool b => Some (if b then 1 else 0)
  | POther => None
  end.

(** One entry of [coordination_plan]. *)
Record PlanEntry := mkPlanEntry {
  pe_signal_id : string;
  pe_green_start_time : Z;
  pe_green_duration : Z;
  pe_delay_from_start : Z
}.

(** The success-shaped dict returned by [coordinate_green_corridor], whose
    ['success'] is computed; the remaining keys ([coordination_id],
    [route_signals]) are functions of the inputs. *)
Record CorridorReport := mkCorridorReport {
  cr_success : bool;
  cr_coordination_plan : list PlanEntry;
  cr_successful_coordinates : list string;
  cr_failed_coordinates : list (string * string);
  cr_start_time : Z;
  cr_estimated_end_time : Z;
  cr_total_duration : Z
}.

Inductive CorridorResult :=
| CorridorError (error : string)
| CorridorDone (r : CorridorReport).

Definition corridor_success (r : CorridorResult) : bool :=
  match r with
  | CorridorError _ => false
  | CorridorDone rep => cr_success rep
  end.

(** ** The controller *)

Section Controller.

(** Configuration read from the environment in [__init__]:
    [EMERGENCY_OVERRIDE_DURATION] and [DEFAULT_RED_DURATION]. *)
Variable emergency_override_duration : Z.
Variable default_red_duration : Z.

(** Whether [self.redis_client.setex] in [_schedule_signal_override]
    succeeds for a signal id and a scheduled start time. *)
Variable schedule_setex_ok : string -> Z -> bool.

(** [_create_signal_if_not_exists] *)
Definition create_signal_if_not_exists (now : Z) (sid : string)
    (states : gmap string SignalState) : gmap string SignalState :=
  match states !! sid with
  | Some _ => states
  | None =>
      <[sid := mkState sid "red" now default_red_duration false ""
                 (Some (NTTiming default_timing))]> states
  end.

(** [emergency_override(signal_id, duration, reason)].  The snapshot is
    written into the old record in place and then carried over into the new
    record, which replaces it; the result dict is built last, and computing
    [estimated_end_time] may raise after the state has been replaced. *)
Definition emergency_override (now : Z) (sid : string) (duration : option Z)
    (reason : string) (states : gmap string SignalState)
    : outcome OverrideInfo * gmap string SignalState :=
  let d := match duration with
           | Some d => d
           | None => emergency_override_duration
           end in
  let states1 := create_signal_if_not_exists now sid states in
  match states1 !! sid with
  | None => (Failure "KeyError", states1)
  | Some cur =>
      let nt := if is_emergency_override cur then normal_timing cur
                else Some (NTSnapshot (mkSnapshot (current_state cur)
                                         (remaining_time cur)
                                         (state_start_time cur))) in
      let states2 := <[sid := mkState sid "green" now d true reason nt]> states1 in
      match add_seconds now d with
      | Some fin => (Success (mkOverrideInfo sid "green" d reason now fin), states2)
      | None => (Failure (overflow_error d), states2)
      end
  end.

(** [restore_normal_operation(signal_id)].  In the branch where
    [normal_timing] is falsy the local [override_duration] is never
    assigned, so building the log payload raises [UnboundLocalError] after
    the state has been replaced. *)
Definition restore_normal_operation (now : Z) (sid : string)
    (states : gmap string SignalState)
    : outcome RestoreInfo * gmap string SignalState :=
  match states !! sid with
  | None => (Failure "Signal not found", states)
  | Some cur =>
      if negb (is_emergency_override cur) then
        (Failure "Signal is not in emergency override", states)
      else
        match normal_timing cur with
        | Some _ =>
            let st := mkState sid "yellow" now (yellow_duration default_timing)
                        false "" None in
            (Success (mkRestoreInfo sid "yellow" now), <[sid := st]> states)
        | None =>
            let st := mkState sid "red" now default_red_duration false "" None in
            (Failure "local variable 'override_duration' referenced before assignment",
             <[sid := st]> states)
        end
  end.

(** [required_fields] of [update_timing], in the order they are checked. *)
Definition required_fields : list string :=
  ["red_duration"; "yellow_duration"; "green_duration"]%string.

(** The validation loop of [update_timing]: the first missing field, or
    the first field whose value fails
    [isinstance(v, int) and v > 0], yields the error message. *)
Fixpoint validate_fields (fields : list string) (cfg : gmap string PyVal)
    : option string :=
  match fields with
  | [] => None
  | f :: rest =>
      match cfg !! f with
      | None => Some ("Missing required field: " ++ f)%string
      | Some v =>
          match py_int_value v with
          | Some z => if z <=? 0 then Some ("Invalid value for " ++ f)%string
                      else validate_fields rest cfg
          | None => Some ("Invalid value for " ++ f)%string
          end
      end
  end.

Definition cfg_int (cfg : gmap string PyVal) (f : string) : Z :=
  match cfg !! f with
  | Some v => match py_int_value v with Some z => z | None => 0 end
  | None => 0
  end.

(** [update_timing(signal_id, timing_config)]: the signal is created
    before the configuration is validated. *)
Definition update_timing (now : Z) (sid : string) (cfg : gmap string PyVal)
    (states : gmap string SignalState)
    : outcome SignalTiming * gmap string SignalState :=
  let states1 := create_signal_if_not_exists now sid states in
  match validate_fields required_fields cfg with
  | Some err => (Failure err, states1)
  | None =>
      let r := cfg_int cfg "red_duration" in
      let y := cfg_int cfg "yellow_duration" in
      let g := cfg_int cfg "green_duration" in
      let t := mkTiming r y g (r + y + g) in
      match states1 !! sid with
      | None => (Failure "KeyError", states1)
      | Some cur =>
          let st := mkState (signal_id cur) (current_state cur)
                      (state_start_time cur) (remaining_time cur)
                      (is_emergency_override cur) (override_reason cur)
                      (Some (NTTiming t)) in
          (Success t, <[sid := st]> states1)
      end
  end.

(** [_schedule_signal_override]: only writes a Redis key. *)
Definition schedule_signal_override (sid : string) (start_time duration : Z)
    : outcome Z :=
  if schedule_setex_ok sid start_time then Success duration
  else Failure "Redis error".

(** The planning loop of [coordinate_green_corridor]:
    [for i, signal_id in enumerate(route_signals)].  Each iteration creates
    the signal, then computes [green_start_time], which may raise; the
    entry is kept when [green_duration > 0].  [Failure] is the exception,
    raised after the signals of the earlier iterations were created. *)
Fixpoint plan_loop (start interval duration i : Z) (sigs : list string)
    (states : gmap string SignalState)
    : outcome (list PlanEntry) * gmap string SignalState :=
  match sigs with
  | [] => (Success [], states)
  | sid :: rest =>
      let states1 := create_signal_if_not_exists start sid states in
      let delay := i * interval in
      match add_seconds start delay with
      | None => (Failure (overflow_error delay), states1)
      | Some gst =>
          let gd := Z.min 60 (duration - delay) in
          let '(r, states2) := plan_loop start interval duration (i + 1) rest states1 in
          (match r with
           | Failure err => Failure err
           | Success p => Success (if 0 <? gd then mkPlanEntry sid gst gd delay :: p else p)
           end, states2)
      end
  end.

Definition corridor_reason (n : nat) : string :=
  "Green corridor coordination - Signal 1 of " ++ pretty (Z.of_nat n).

(** The execution loop of [coordinate_green_corridor]: the entry with
    delay 0 is overridden at once, the others are scheduled; returns
    [successful_coordinates] and [failed_coordinates] in plan order. *)
Fixpoint execute_plan (now : Z) (n : nat) (plan : list PlanEntry)
    (states : gmap string SignalState)
    : list string * list (string * string) * gmap string SignalState :=
  match plan with
  | [] => ([], [], states)
  | e :: rest =>
      let '(ok, states1) :=
        if pe_delay_from_start e =? 0 then
          let '(res, st') := emergency_override now (pe_signal_id e)
                               (Some (pe_green_duration e)) (corridor_reason n) states in
          (match res with Success _ => None | Failure err => Some err end, st')
        else
          (match schedule_signal_override (pe_signal_id e) (pe_green_start_time e)
                   (pe_green_duration e) with
           | Success _ => None
           | Failure err => Some err
           end, states) in
      let '(succ, failed, states2) := execute_plan now n rest states1 in
      match ok with
      | None => (pe_signal_id e :: succ, failed, states2)
      | Some err => (succ, (pe_signal_id e, err) :: failed, states2)
      end
  end.

(** [coordinate_green_corridor(route_signals, duration)]; Python's [//] is
    floor division, [Z.div]. *)
Definition coordinate_green_corridor (now : Z) (sigs : list string)
    (duration : Z) (states : gmap string SignalState)
    : CorridorResult * gmap string SignalState :=
  match sigs with
  | [] => (CorridorError "No signals provided", states)
  | _ =>
      let n := length sigs in
      let interval := Z.max 10 (duration / Z.of_nat n) in
      match plan_loop now interval duration 0 sigs states with
      | (Failure err, states1) => (CorridorError err, states1)
      | (Success plan, states1) =>
          let '(succ, failed, states2) := execute_plan now n plan states1 in
          match add_seconds now duration with
          | None => (CorridorError (overflow_error duration), states2)
          | Some fin =>
              (CorridorDone (mkCorridorReport (negb (length succ =? 0)%nat) plan
                               succ failed now fin duration), states2)
          end
      end
  end.

(** The timing used by [_transition_to_next_state]:
    [SignalTiming] built from the unpacked [normal_timing] if it is truthy, else the default.
    A snapshot dict has keys [SignalTiming] does not accept: [TypeError]. *)
Definition timing_of (nt : option NormalTiming) : option SignalTiming :=
  match nt with
  | None => Some default_timing
  | Some (NTTiming t) => Some t
  | Some (NTSnapshot _) => None
  end.

(** [_transition_to_next_state]: an exception (a missing key, a bad
    timing dict) is caught and logged, and nothing changes. *)
Definition transition_to_next_state (clk : Z) (sid : string)
    (states : gmap string SignalState) : gmap string SignalState :=
  match states !! sid with
  | None => states
  | Some cur =>
      match timing_of (normal_timing cur) with
      | None => states
      | Some t =>
          let '(ns, nd) :=
            if String.eqb (current_state cur) "red" then ("green", green_duration t)
            else if String.eqb (current_state cur) "green" then ("yellow", yellow_duration t)
            else ("red", red_duration t) in
          <[sid := mkState sid ns clk nd false "" (normal_timing cur)]> states
      end
  end.

(** The body of the monitor loop for one signal: [current_time] is read
    at the start of the iteration, [clk] is the later clock reading of the
    restore or transition it triggers. *)
Definition tick_signal (current_time clk : Z) (sid : string)
    (states : gmap string SignalState) : gmap string SignalState :=
  match states !! sid with
  | None => states
  | Some st =>
      if remaining_time st * us_per_s <=? current_time - state_start_time st then
        if is_emergency_override st then snd (restore_normal_operation clk sid states)
        else transition_to_next_state clk sid states
      else states
  end.

(** One iteration of [_monitor_signals] over the listed signal ids. *)
Definition monitor_iteration (current_time clk : Z) (sids : list string)
    (states : gmap string SignalState) : gmap string SignalState :=
  fold_left (fun st sid => tick_signal current_time clk sid st) sids states.

(** [remaining_time] as reported by [get_signal_status] at time [t]:
    [int(max(0, remaining_time - elapsed))]. *)
Definition status_remaining_time (t : Z) (st : SignalState) : Z :=
  Z.max 0 ((remaining_time st * us_per_s - (t - state_start_time st)) / us_per_s).

(** The operations that change [self.signal_states], each with its clock
    reading(s): the request-driven methods and one monitor step. *)
Inductive Op :=
| OpCreate (now : Z) (sid : string)
| OpOverride (now : Z) (sid : string) (duration : option Z) (reason : string)
| OpRestore (now : Z) (sid : string)
| OpUpdateTiming (now : Z) (sid : string) (cfg : gmap string PyVal)
| OpTick (current_time clk : Z) (sid : string)
| OpCoordinate (now : Z) (sigs : list string) (duration : Z).

Definition step (op : Op) (states : gmap string SignalState)
    : gmap string SignalState :=
  match op with
  | OpCreate now sid => create_signal_if_not_exists now sid states
  | OpOverride now sid d r => snd (emergency_override now sid d r states)
  | OpRestore now sid => snd (restore_normal_operation now sid states)
  | OpUpdateTiming now sid cfg => snd (update_timing now sid cfg states)
  | OpTick ct clk sid => tick_signal ct clk sid states
  | OpCoordinate now sigs d => snd (coordinate_green_corridor now sigs d states)
  end.

Fixpoint run (ops : list Op) (states : gmap string SignalState)
    : gmap string SignalState :=
  match ops with
  | [] => states
  | op :: rest => run rest (step op states)
  end.

(** [_initialize_default_signals] *)
Definition default_signals : list string :=
  ["clock_tower"; "paltan_bazaar"; "rispana_bridge"; "gandhi_road";
   "rajpur_road"; "saharanpur_road"; "haridwar_road"; "mussoorie_road";
   "chakrata_road"; "ballupur"]%string.

Definition initialize_default_signals (now : Z) : gmap string SignalState :=
  fold_left (fun st sid => create_signal_if_not_exists now sid st)
    default_signals empty.

(** The phase that follows [s] in [_transition_to_next_state]. *)
Definition next_phase (s : string) : string :=
  if String.eqb s "red" then "green"
  else if String.eqb s "green" then "yellow"
  else "red".

Definition valid_phase (s : string) : Prop :=
  s = "red"%string \/ s = "yellow"%string \/ s = "green"%string.

(** [get_signal_status(signal_id)] at time [t]; the two clock readings
    of the source (for [elapsed] and [last_updated]) are read once. *)
Record StatusInfo := mkStatus {
  si_signal_id : string;
  si_current_state : string;
  si_remaining_time : Z;
  si_is_emergency_override : bool;
  si_override_reason : string;
  si_state_start_time : Z
}.

Definition get_signal_status (t : Z) (sid : string)
    (states : gmap string SignalState) : outcome StatusInfo :=
  match states !! sid with
  | None => Failure "Signal not found"
  | Some st =>
      Success (mkStatus sid (current_state st) (status_remaining_time t st)
                 (is_emergency_override st) (override_reason st)
                 (state_start_time st))
  end.

(** [status.get('is_emergency_override', False)]: an error dict has no
    such key. *)
Definition status_override_flag (s : outcome StatusInfo) : bool :=
  match s with
  | Success i => si_is_emergency_override i
  | Failure _ => false
  end.

(** [get_all_signals_status()]: [all_status] maps every signal id, in the
    order of [self.signal_states], to its status; the ids are distinct, so
    the dict is kept as the list of its items. *)
Record AllStatus := mkAllStatus {
  as_signals : list (string * outcome StatusInfo);
  as_total_signals : nat;
  as_emergency_overrides_active : nat
}.

Definition get_all_signals_status (t : Z) (states : gmap string SignalState)
    : AllStatus :=
  let all_status :=
    map (fun kv => (kv.1, get_signal_status t kv.1 states)) (map_to_list states) in
  mkAllStatus all_status (length all_status)
    (length (List.filter (fun kv => status_override_flag kv.2) all_status)).

End Controller.

(** ** Signal timing optimisation *)

(** The values of the [traffic_data] and [emergency_data] dicts, as they
    come from JSON: a number (an [int], a [bool] or a [float], possibly
    infinite or NaN; finite values are exact rationals), a string, [None],
    or a list or dict, which is unhashable.  Comparing anything but a
    number with a number raises [TypeError]. *)
Inductive PyNum :=
| NumFin (q : Q)
| NumPosInf
| NumNegInf
| NumNaN.

Inductive PyObj :=
| ONum (n : PyNum)
| OStr (s : string)
| ONone
| OUnhashable.

(** [v > c] for a number [c]; [None] is the [TypeError]. *)
Definition py_gt (v : PyObj) (c : Q) : option bool :=
  match v with
  | ONum (NumFin q) => Some (negb (Qle_bool q c))
  | ONum NumPosInf => Some true
  | ONum NumNegInf => Some false
  | ONum NumNaN => Some false
  | _ => None
  end.

(** [if v > hi: a  elif v > lo: b  else: c] *)
Definition py_tier {A} (v : PyObj) (hi lo : Q) (a b c : A) : option A :=
  match py_gt v hi with
  | None => None
  | Some true => Some a
  | Some false =>
      match py_gt v lo with
      | None => None
      | Some true => Some b
      | Some false => Some c
      end
  end.

(** [d.get(k, default)] *)
Definition dict_get (d : gmap string PyObj) (k : string) (def : PyObj) : PyObj :=
  match d !! k with Some v => v | None => def end.

(** [traffic_density_threshold_high = 0.8] and
    [traffic_density_threshold_medium = 0.5], as the exact values of the
    doubles ([0.8] is 3602879701896397 / 2^52). *)
Definition traffic_density_threshold_high : Q := 3602879701896397 # 4503599627370496.
Definition traffic_density_threshold_medium : Q := 1 # 2.

(** The timing dicts the algorithms return, one constructor per shape. *)
Inductive TimingConfig :=
| TCDefault (green red yellow cycle : Z)
| TCAdaptive (green red yellow cycle : Z) (density_factor queue_factor wait_factor : PyObj)
| TCEmergency (preemption_green clearance_time : Z)
    (approach_direction vehicle_type : PyObj) (priority_level : Z)
    (estimated_arrival : PyObj)
    (north_south_green east_west_green north_south_red east_west_red : Z)
| TCWebster (optimal_cycle_time green_north_south green_east_west
              yellow_duration red_clearance : Z).

(** [optimize_signal_timing] either returns the bare default dict or a
    success dict wrapping the algorithm's result. *)
Inductive OptimizeResult :=
| OptBare (t : TimingConfig)
| OptSuccess (sid algorithm : string) (t : TimingConfig).

(** [priority_levels] of [_emergency_priority_algorithm] *)
Definition priority_levels : gmap string Z :=
  list_to_map [("ambulance", 1); ("fire_truck", 1); ("police", 2)]%string.

(** [priority_levels.get(vehicle_type, 2)]; an unhashable key raises
    [TypeError]. *)
Definition priority_of (vt : PyObj) : option Z :=
  match vt with
  | OStr s => Some (default 2 (priority_levels !! s))
  | OUnhashable => None
  | _ => Some 2
  end.

(** [approach_direction in ['north', 'south']] *)
Definition is_north_south (v : PyObj) : bool :=
  match v with
  | OStr s => String.eqb s "north" || String.eqb s "south"
  | _ => false
  end.

Section Optimizer.

(** [DEFAULT_GREEN_DURATION] and [DEFAULT_RED_DURATION] *)
Variable default_green_duration : Z.
Variable default_red_duration : Z.

(** [_webster_algorithm] computes with floats and is not embedded: it is
    a parameter of [optimize_signal_timing]. *)
Variable webster_algorithm : string -> gmap string PyObj -> TimingConfig.

(** [_get_default_timing] *)
Definition get_default_timing : TimingConfig :=
  TCDefault default_green_duration default_red_duration 5
    (default_green_duration + default_red_duration + 5).

(** [_adaptive_algorithm(signal_id, traffic_data)]: the three comparisons
    run in order; a [TypeError] in any of them is caught and yields the
    default timing. *)
Definition adaptive_algorithm (sid : string) (traffic_data : gmap string PyObj)
    : TimingConfig :=
  let current_density := dict_get traffic_data "traffic_density" (ONum (NumFin (1 # 2))) in
  let queue_length := dict_get traffic_data "queue_length" (ONum (NumFin 0)) in
  let waiting_time := dict_get traffic_data "avg_waiting_time" (ONum (NumFin 0)) in
  match py_tier current_density traffic_density_threshold_high
          traffic_density_threshold_medium (15, -10) (5, -5) (-5, 5) with
  | None => get_default_timing
  | Some (gd, rd) =>
      match py_tier queue_length 10 5 10 5 0 with
      | None => get_default_timing
      | Some gq =>
          match py_tier waiting_time 60 30 10 5 0 with
          | None => get_default_timing
          | Some gw =>
              let green_adjustment := gd + gq + gw in
              let red_adjustment := rd in
              let optimized_green :=
                Z.max 20 (Z.min 60 (default_green_duration + green_adjustment)) in
              let optimized_red :=
                Z.max 30 (Z.min 90 (default_red_duration + red_adjustment)) in
              TCAdaptive optimized_green optimized_red 5
                (optimized_green + optimized_red + 5)
                current_density queue_length waiting_time
          end
      end
  end.

(** [_emergency_priority_algorithm(signal_id, emergency_data)] *)
Definition emergency_priority_algorithm (sid : string)
    (emergency_data : gmap string PyObj) : TimingConfig :=
  let vehicle_type := dict_get emergency_data "vehicle_type" (OStr "ambulance") in
  let approach_direction := dict_get emergency_data "approach_direction" (OStr "north") in
  let estimated_arrival := dict_get emergency_data "estimated_arrival_time" (ONum (NumFin 10)) in
  match priority_of vehicle_type with
  | None => get_default_timing
  | Some priority =>
      let '(preemption_green, clearance_time) :=
        if priority =? 1 then (60, 10) else (45, 5) in
      if is_north_south approach_direction then
        TCEmergency preemption_green clearance_time approach_direction vehicle_type
          priority estimated_arrival preemption_green 0 0 (preemption_green + clearance_time)
      else
        TCEmergency preemption_green clearance_time approach_direction vehicle_type
          priority estimated_arrival 0 preemption_green (preemption_green + clearance_time) 0
  end.

(** A dict is truthy when it is not empty; [None] is falsy. *)
Definition dict_truthy (d : option (gmap string PyObj)) : bool :=
  match d with
  | Some m => negb (size m =? 0)%nat
  | None => false
  end.

(** [optimize_signal_timing(signal_id, algorithm, traffic_data,
    emergency_data)]; the algorithms catch their own exceptions and the
    event log swallows its errors, so no exception reaches the outer
    [try]. *)
Definition optimize_signal_timing (sid algorithm : string)
    (traffic_data emergency_data : option (gmap string PyObj)) : OptimizeResult :=
  if negb (String.eqb algorithm "webster" || String.eqb algorithm "adaptive"
           || String.eqb algorithm "emergency_priority") then
    OptBare get_default_timing
  else
    let optimization_data :=
      if String.eqb algorithm "emergency_priority" && dict_truthy emergency_data
      then default empty emergency_data
      else default empty traffic_data in
    let optimized_timing :=
      if String.eqb algorithm "webster" then webster_algorithm sid optimization_data
      else if String.eqb algorithm "adaptive" then adaptive_algorithm sid optimization_data
      else emergency_priority_algorithm sid optimization_data in
    OptSuccess sid algorithm optimized_timing.

End Optimizer.

(** ** Specification predicates *)

(** The record [emergency_override] keeps in [normal_timing]. *)
Definition override_saved_timing (default_red_duration now : Z) (old : option SignalState)
    : option NormalTiming :=
  match old with
  | None => Some (NTSnapshot (mkSnapshot "red" default_red_duration now))
  | Some cur =>
      if is_emergency_override cur then normal_timing cur
      else Some (NTSnapshot (mkSnapshot (current_state cur) (remaining_time cur)
                               (state_start_time cur)))
  end.

(** What every record reachable from the initial map satisfies: its phase
    is one of the three colours; in normal mode its [normal_timing] is a
    timing dict or [None] (never the snapshot); in override mode it is
    truthy. *)
Definition signal_ok (st : SignalState) : Prop :=
  valid_phase (current_state st) /\
  (is_emergency_override st = false -> timing_of (normal_timing st) <> None) /\
  (is_emergency_override st = true -> normal_timing st <> None).

Definition states_ok (states : gmap string SignalState) : Prop :=
  forall sid st, states !! sid = Some st -> signal_ok st.

Definition timing_positive (t : SignalTiming) : Prop :=
  0 < red_duration t /\ 0 < yellow_duration t /\ 0 < green_duration t.

(** [isinstance(v, int) and v > 0], the check [update_timing] applies. *)
Definition positive_int (v : PyVal) : Prop :=
  match py_int_value v with Some z => 0 < z | None => False end.

Definition updates_timing_of (sid : string) (op : Op) : Prop :=
  match op with
  | OpUpdateTiming _ k _ => k = sid
  | _ => False
  end.

(** The signal [sid] exists, and whenever it is in normal mode its
    [normal_timing] is [None]. *)
Definition timing_cleared (sid : string) (states : gmap string SignalState) : Prop :=
  (exists st, states !! sid = Some st) /\
  (forall st, states !! sid = Some st -> is_emergency_override st = false ->
     normal_timing st = None).

(** The corridor plan stated the way section 4.3 of the spec words it:
    with [interval = max(10, total_duration // n)], entry [i] of the route
    has delay [i * interval], starts [delay] seconds after [start] and
    lasts [min(60, total_duration - delay)]; entries whose duration is not
    positive are dropped. *)
Definition corridor_entry_spec (start interval duration : Z) (i : nat)
    (sid : string) : PlanEntry :=
  let delay := Z.of_nat i * interval in
  mkPlanEntry sid (start + delay * us_per_s) (Z.min 60 (duration - delay)) delay.

Definition corridor_plan_from (start interval duration : Z) (k : nat)
    (sigs : list string) : list PlanEntry :=
  List.filter (fun e => 0 <? pe_green_duration e)
    (imap (fun i sid => corridor_entry_spec start interval duration (k + i) sid) sigs).

Definition corridor_plan_spec (start duration : Z) (sigs : list string)
    : list PlanEntry :=
  corridor_plan_from start (Z.max 10 (duration / Z.of_nat (length sigs)))
    duration 0 sigs.

Definition delays_nondecreasing (plan : list PlanEntry) : Prop :=
  StronglySorted (fun e1 e2 => pe_delay_from_start e1 <= pe_delay_from_start e2) plan.

(** The error returned by the call [coordinate_green_corridor] makes for a
    plan entry, if any: the immediate [emergency_override] when the
    entry's delay is 0, the [_schedule_signal_override] otherwise. *)
Definition corridor_call_error (eo_dur red_dur : Z) (setex_ok : string -> Z -> bool)
    (now : Z) (n : nat) (states : gmap string SignalState) (e : PlanEntry)
    : option string :=
  if pe_delay_from_start e =? 0 then
    match fst (emergency_override eo_dur red_dur now (pe_signal_id e)
                 (Some (pe_green_duration e)) (corridor_reason n) states) with
    | Success _ => None
    | Failure err => Some err
    end
  else
    match schedule_signal_override setex_ok (pe_signal_id e) (pe_green_start_time e)
            (pe_green_duration e) with
    | Success _ => None
    | Failure err => Some err
    end.

(** The number of signals whose record is in emergency override. *)
Definition override_count (states : gmap string SignalState) : nat :=
  length (List.filter (fun kv => is_emergency_override kv.2) (map_to_list states)).

(** The signal ids an operation is given. *)
Definition op_signals (op : Op) : list string :=
  match op with
  | OpCreate _ sid | OpOverride _ sid _ _ | OpRestore _ sid
  | OpUpdateTiming _ sid _ | OpTick _ _ sid => [sid]
  | OpCoordinate _ sigs _ => sigs
  end.

(** The planned duration of a phase under a timing. *)
Definition phase_duration (t : SignalTiming) (s : string) : Z :=
  if String.eqb s "green" then green_duration t
  else if String.eqb s "yellow" then yellow_duration t
  else red_duration t.

Definition py_is_number (v : PyObj) : bool :=
  match v with ONum _ => true | _ => false end.

(** The three values [_adaptive_algorithm] reads are numbers. *)
Definition adaptive_inputs_numeric (d : gmap string PyObj) : bool :=
  py_is_number (dict_get d "traffic_density" (ONum (NumFin (1 # 2)))) &&
  py_is_number (dict_get d "queue_length" (ONum (NumFin 0))) &&
  py_is_number (dict_get d "avg_waiting_time" (ONum (NumFin 0))).

(** Python's [a <= b] on two numbers (false as soon as one is NaN). *)
Definition py_num_le (a b : PyNum) : bool :=
  match a, b with
  | NumNaN, _ | _, NumNaN => false
  | NumNegInf, _ | _, NumPosInf => true
  | NumPosInf, _ | _, NumNegInf => false
  | NumFin x, NumFin y => Qle_bool x y
  end.

(** [a <= b] for two values that are both numbers. *)
Definition py_le (a b : PyObj) : bool :=
  match a, b with
  | ONum x, ONum y => py_num_le x y
  | _, _ => false
  end.

(** Between [s] and [s'], no signal disappears and every new signal is
    one of [L]. *)
Definition grows_within (L : list string) (s s' : gmap string SignalState) : Prop :=
  (forall k, is_Some (s !! k) -> is_Some (s' !! k)) /\
  (forall k, is_Some (s' !! k) -> is_Some (s !! k) \/ k ∈ L).

(** ** Concrete runs *)

(** 2026-10-17T00:00:00, in microseconds since the epoch. *)
Definition t2026 : Z := 1792195200000000.

(** The controller just after [__init__] with the source's defaults
    ([DEFAULT_RED_DURATION] 45), started at [t2026]. *)
Definition init2026 : gmap string SignalState := initialize_default_signals 45 t2026.

(** A custom timing configuration: red 40 s, yellow 7 s, green 20 s. *)
Definition cfg_custom : gmap string PyVal :=
  list_to_map [("red_duration", PInt 40); ("yellow_duration", PInt 7);
               ("green_duration", PInt 20)]%string.

(** A Redis that accepts every [setex], and one that is down. *)
Definition redis_up : string -> Z -> bool := fun _ _ => true.
Definition redis_down : string -> Z -> bool := fun _ _ => false.

(** The clock-tower signal of [init2026] after an ambulance override. *)
Definition overridden2026 : gmap string SignalState :=
  snd (emergency_override 60 45 t2026 "clock_tower" (Some 60) "ambulance" init2026).

(** Heavy traffic: density 0.9, 12 queued vehicles, 40 s of waiting. *)
Definition traffic_heavy : gmap string PyObj :=
  list_to_map [("traffic_density", ONum (NumFin (9 # 10)));
               ("queue_length", ONum (NumFin 12));
               ("avg_waiting_time", ONum (NumFin 40))]%string.

(** ** Properties *)

Section Proofs.

Variable eo_dur : Z.
Variable red_dur : Z.
Variable setex_ok : string -> Z -> bool.

(** *** Lookups after the single-signal operations *)

Lemma create_lookup_self now sid states :
  create_signal_if_not_exists red_dur now sid states !! sid =
    Some (match states !! sid with
          | Some st => st
          | None => mkState sid "red" now red_dur false ""
                      (Some (NTTiming default_timing))
          end).
Proof.
  unfold create_signal_if_not_exists.
  destruct (states !! sid) eqn:E; [done|]. by rewrite lookup_insert_eq.
Qed.

Lemma create_lookup_other now sid k states :
  sid <> k -> create_signal_if_not_exists red_dur now sid states !! k = states !! k.
Proof.
  intros Hne. unfold create_signal_if_not_exists.
  destruct (states !! sid); [done|]. by rewrite lookup_insert_ne.
Qed.

Lemma create_existing now sid states st :
  states !! sid = Some st -> create_signal_if_not_exists red_dur now sid states = states.
Proof. intros H. unfold create_signal_if_not_exists. by rewrite H. Qed.

(** [emergency_override] in closed form, for every duration. *)
Lemma emergency_override_eq now sid d r states :
  emergency_override eo_dur red_dur now sid (Some d) r states =
    (match add_seconds now d with
     | Some fin => Success (mkOverrideInfo sid "green" d r now fin)
     | None => Failure (overflow_error d)
     end,
     <[sid := mkState sid "green" now d true r
                (override_saved_timing red_dur now (states !! sid))]>
       (create_signal_if_not_exists red_dur now sid states)).
Proof.
  unfold emergency_override. rewrite create_lookup_self.
  destruct (states !! sid) as [cur|] eqn:E; simpl;
    [destruct (is_emergency_override cur)|]; simpl;
    by destruct (add_seconds now d).
Qed.

Lemma status_remaining_le t st :
  state_start_time st <= t -> 0 <= remaining_time st ->
  status_remaining_time t st <= remaining_time st.
Proof.
  intros Ht Hr. unfold status_remaining_time, us_per_s.
  apply Z.max_lub; [lia|].
  apply Z.div_le_upper_bound; lia.
Qed.

(** *** C1 (amended): emergency override with a positive duration *)

(** C1: for every signal id, duration [d > 0] and reason,
    [emergency_override] replaces the signal's record by one with phase
    ["green"], [is_emergency_override = true], [state_start_time = now],
    planned duration [d] and the given reason, so the remaining time reported
    at any later instant is at most [d].  A missing signal is created first
    (at red), and a signal not already overridden has its
    [{state, remaining_time, state_start_time}] saved in [normal_timing];
    other signals are untouched.  The result is a success dict exactly when
    [now + d] seconds is still a valid [datetime]; otherwise the
    [OverflowError] of the end-time computation yields a failure dict whose
    error is the exception's message, although the override has been
    applied: ['date value out of range'], or, for [|d|] of at least
    86400 * 10^9 seconds, the message of the [timedelta] constructor
    ([overflow_error]). *)
Theorem emergency_override_positive now sid d r states :
  0 < d ->
  let '(res, states') := emergency_override eo_dur red_dur now sid (Some d) r states in
  (exists st,
     states' !! sid = Some st /\
     current_state st = "green"%string /\
     is_emergency_override st = true /\
     state_start_time st = now /\
     remaining_time st = d /\
     override_reason st = r /\
     normal_timing st = override_saved_timing red_dur now (states !! sid) /\
     (forall t, now <= t -> status_remaining_time t st <= d)) /\
  (forall k, k <> sid -> states' !! k = states !! k) /\
  res = match add_seconds now d with
        | Some fin => Success (mkOverrideInfo sid "green" d r now fin)
        | None => Failure (overflow_error d)
        end.
Proof.
  intros Hd. rewrite emergency_override_eq. split; [|split].
  - eexists. rewrite lookup_insert_eq. split; [reflexivity|].
    do 6 (split; [reflexivity|]).
    intros t Ht. apply (status_remaining_le t (mkState _ _ _ _ _ _ _)); simpl; lia.
  - intros k Hk. rewrite lookup_insert_ne by congruence.
    by apply create_lookup_other.
  - reflexivity.
Qed.

(** *** C2 (amended): no validation of the override duration *)

(** C2: [emergency_override] does not check its duration.  For a duration
    [d <= 0] whose end time [now + d] is a valid [datetime] it returns a
    success dict and applies the override as for a positive duration: the
    signal is ["green"], overridden, started at [now], with planned
    duration [d]. *)
Theorem emergency_override_nonpositive now sid d r states :
  d <= 0 ->
  datetime_min_us <= now + d * us_per_s <= datetime_max_us ->
  exists st,
    emergency_override eo_dur red_dur now sid (Some d) r states =
      (Success (mkOverrideInfo sid "green" d r now (now + d * us_per_s)),
       <[sid := st]> (create_signal_if_not_exists red_dur now sid states)) /\
    current_state st = "green"%string /\
    is_emergency_override st = true /\
    state_start_time st = now /\
    remaining_time st = d.
Proof.
  intros _ Hr. rewrite emergency_override_eq.
  unfold add_seconds.
  replace ((datetime_min_us <=? now + d * us_per_s) &&
           (now + d * us_per_s <=? datetime_max_us)) with true
    by (symmetry; apply andb_true_iff; split; apply Z.leb_le; lia).
  eexists. split; [reflexivity|]. simpl. done.
Qed.

(** *** C4: restore on a signal that is not overridden *)

(** C4: [restore_normal_operation] on a signal that does not exist, or
    exists without an active emergency override, returns a failure dict
    ("Signal not found" or "Signal is not in emergency override") and
    leaves every signal record as it was. *)
Theorem restore_not_overridden_fails now sid states :
  (states !! sid = None \/
   exists st, states !! sid = Some st /\ is_emergency_override st = false) ->
  exists err,
    restore_normal_operation red_dur now sid states = (Failure err, states).
Proof.
  intros [H | [st [H Hov]]]; unfold restore_normal_operation; rewrite H.
  - by eexists.
  - rewrite Hov. by eexists.
Qed.

(** *** The invariant of the signal map *)

Lemma states_ok_insert states k st :
  states_ok states -> signal_ok st -> states_ok (<[k := st]> states).
Proof.
  intros Hs Hst sid st' H. rewrite lookup_insert in H.
  case_decide; [congruence | eauto].
Qed.

Lemma states_ok_empty : states_ok empty.
Proof. intros sid st H. by rewrite lookup_empty in H. Qed.

Ltac signal_ok_record :=
  repeat split; simpl;
  first [ unfold valid_phase; tauto | discriminate | intros _; discriminate
        | idtac ].

Lemma create_ok now sid states :
  states_ok states -> states_ok (create_signal_if_not_exists red_dur now sid states).
Proof.
  intros Hs. unfold create_signal_if_not_exists.
  destruct (states !! sid); [done|].
  apply states_ok_insert; [done|]. signal_ok_record.
Qed.

Lemma override_ok now sid d r states :
  states_ok states ->
  states_ok (snd (emergency_override eo_dur red_dur now sid d r states)).
Proof.
  intros Hs.
  assert (Hd : exists d', d = Some d' \/ (d = None /\ d' = eo_dur))
    by (destruct d as [d'|]; [exists d'; auto | exists eo_dur; auto]).
  destruct Hd as [d' Hd].
  replace (emergency_override eo_dur red_dur now sid d r states)
    with (emergency_override eo_dur red_dur now sid (Some d') r states)
    by (destruct Hd as [-> | [-> ->]]; reflexivity).
  rewrite emergency_override_eq. simpl.
  apply states_ok_insert; [by apply create_ok|].
  repeat split; simpl; [unfold valid_phase; tauto | discriminate |].
  intros _. unfold override_saved_timing.
  destruct (states !! sid) as [cur|] eqn:E; [|discriminate].
  destruct (is_emergency_override cur) eqn:Hov; [|discriminate].
  by apply (Hs sid cur E).
Qed.

Lemma restore_ok now sid states :
  states_ok states ->
  states_ok (snd (restore_normal_operation red_dur now sid states)).
Proof.
  intros Hs. unfold restore_normal_operation.
  destruct (states !! sid) as [cur|]; [|done].
  destruct (negb (is_emergency_override cur)); [done|].
  destruct (normal_timing cur); simpl; apply states_ok_insert; try done;
    signal_ok_record.
Qed.

Lemma update_timing_ok now sid cfg states :
  states_ok states ->
  states_ok (snd (update_timing red_dur now sid cfg states)).
Proof.
  intros Hs. pose proof (create_ok now sid states Hs) as Hc.
  unfold update_timing.
  destruct (validate_fields required_fields cfg); [done|].
  destruct (create_signal_if_not_exists red_dur now sid states !! sid)
    as [cur|] eqn:E; [|done].
  simpl. apply states_ok_insert; [done|].
  destruct (Hc sid cur E) as [Hp _].
  repeat split; simpl; [done | discriminate | discriminate].
Qed.

Lemma transition_ok clk sid states :
  states_ok states -> states_ok (transition_to_next_state clk sid states).
Proof.
  intros Hs. unfold transition_to_next_state.
  destruct (states !! sid) as [cur|]; [|done].
  destruct (timing_of (normal_timing cur)) as [t|] eqn:Et; [|done].
  destruct (String.eqb (current_state cur) "red");
    [|destruct (String.eqb (current_state cur) "green")];
    (apply states_ok_insert; [done|]);
    repeat split; simpl; try (unfold valid_phase; tauto); try discriminate;
    intros _; by rewrite Et.
Qed.

Lemma tick_ok ct clk sid states :
  states_ok states -> states_ok (tick_signal red_dur ct clk sid states).
Proof.
  intros Hs. unfold tick_signal.
  destruct (states !! sid) as [st|]; [|done].
  destruct (_ <=? _); [|done].
  destruct (is_emergency_override st);
    [by apply restore_ok | by apply transition_ok].
Qed.

Lemma plan_loop_ok start interval duration i sigs states :
  states_ok states ->
  states_ok (snd (plan_loop red_dur start interval duration i sigs states)).
Proof.
  revert i states. induction sigs as [|sid rest IH]; intros i states Hs; simpl; [done|].
  destruct (add_seconds start (i * interval)); simpl; [|by apply create_ok].
  destruct (plan_loop red_dur start interval duration (i + 1) rest _) as [r st2] eqn:E.
  simpl. specialize (IH (i + 1) (create_signal_if_not_exists red_dur start sid states)).
  rewrite E in IH. by apply IH, create_ok.
Qed.

Lemma execute_plan_ok now n plan states :
  states_ok states ->
  states_ok (snd (execute_plan eo_dur red_dur setex_ok now n plan states)).
Proof.
  revert states. induction plan as [|e rest IH]; intros states Hs; simpl; [done|].
  destruct (if pe_delay_from_start e =? 0 then _ else _) as [ok st1] eqn:E1.
  assert (Hs1 : states_ok st1).
  { destruct (pe_delay_from_start e =? 0).
    - destruct (emergency_override _ _ _ _ _ _ _) as [res st'] eqn:Eo.
      injection E1 as _ <-.
      pose proof (override_ok now (pe_signal_id e) (Some (pe_green_duration e))
                    (corridor_reason n) states Hs) as Ho.
      by rewrite Eo in Ho.
    - by injection E1 as _ <-. }
  specialize (IH st1 Hs1).
  destruct (execute_plan eo_dur red_dur setex_ok now n rest st1) as [[succ failed] st2].
  by destruct ok.
Qed.

Lemma coordinate_ok now sigs duration states :
  states_ok states ->
  states_ok (snd (coordinate_green_corridor eo_dur red_dur setex_ok now sigs duration states)).
Proof.
  intros Hs. unfold coordinate_green_corridor.
  destruct sigs as [|s0 rest]; [done|].
  pose proof (plan_loop_ok now (Z.max 10 (duration / Z.of_nat (length (s0 :: rest))))
                duration 0 (s0 :: rest) states Hs) as Hp.
  destruct (plan_loop _ _ _ _ _ _ _) as [[plan|] st1]; simpl in Hp; [|done].
  pose proof (execute_plan_ok now (length (s0 :: rest)) plan st1 Hp) as He.
  destruct (execute_plan _ _ _ _ _ _ _) as [[succ failed] st2].
  by destruct (add_seconds now duration).
Qed.

Lemma step_ok op states : states_ok states -> states_ok (step eo_dur red_dur setex_ok op states).
Proof.
  intros Hs. destruct op; simpl.
  - by apply create_ok.
  - by apply override_ok.
  - by apply restore_ok.
  - by apply update_timing_ok.
  - by apply tick_ok.
  - by apply coordinate_ok.
Qed.

Lemma run_ok ops states : states_ok states -> states_ok (run eo_dur red_dur setex_ok ops states).
Proof.
  revert states. induction ops as [|op ops IH]; intros states Hs; simpl; [done|].
  by apply IH, step_ok.
Qed.

Lemma initialize_ok now : states_ok (initialize_default_signals red_dur now).
Proof.
  unfold initialize_default_signals.
  generalize (states_ok_empty). generalize (empty : gmap string SignalState).
  induction default_signals as [|s l IH]; intros m Hm; simpl; [done|].
  by apply IH, create_ok.
Qed.

(** *** C8: phases and the normal cycle along every run *)

Lemma tick_lookup_normal ct clk sid states st :
  states_ok states -> states !! sid = Some st -> is_emergency_override st = false ->
  exists st',
    tick_signal red_dur ct clk sid states !! sid = Some st' /\
    (if remaining_time st * us_per_s <=? ct - state_start_time st then
       current_state st' = next_phase (current_state st) /\
       is_emergency_override st' = false /\ state_start_time st' = clk
     else st' = st).
Proof.
  intros Hs E Hov. unfold tick_signal. rewrite E.
  destruct (_ <=? _); [|by eexists]. rewrite Hov.
  unfold transition_to_next_state. rewrite E.
  destruct (Hs sid st E) as [_ [Hn _]]. specialize (Hn Hov).
  destruct (timing_of (normal_timing st)) as [t|]; [|congruence].
  unfold next_phase.
  destruct (String.eqb (current_state st) "red");
    [|destruct (String.eqb (current_state st) "green")];
    eexists; (split; [apply lookup_insert_eq|]); simpl; auto.
Qed.

(** C8: in every map reached from the controller's initial signals by any
    sequence of creations, overrides, restorations, timing updates, monitor
    ticks and corridor coordinations, every signal's [current_state] is
    ["red"], ["yellow"] or ["green"] (the mode is the single flag
    [is_emergency_override]: override when true, normal cycling when
    false); and a tick on a signal in normal mode whose phase has elapsed
    moves it to [next_phase] of its phase (red to green, green to yellow,
    yellow to red), still in normal mode, started at the tick's clock
    reading, while a tick before the phase has elapsed changes nothing. *)
Theorem reachable_phases_and_cycle now0 ops :
  let states := run eo_dur red_dur setex_ok ops (initialize_default_signals red_dur now0) in
  (forall sid st, states !! sid = Some st -> valid_phase (current_state st)) /\
  (forall sid st ct clk,
     states !! sid = Some st -> is_emergency_override st = false ->
     exists st',
       tick_signal red_dur ct clk sid states !! sid = Some st' /\
       (if remaining_time st * us_per_s <=? ct - state_start_time st then
          current_state st' = next_phase (current_state st) /\
          is_emergency_override st' = false /\ state_start_time st' = clk
        else st' = st)).
Proof.
  intros states.
  assert (Hs : states_ok states) by (apply run_ok, initialize_ok).
  split.
  - intros sid st H. apply (Hs sid st H).
  - intros sid st ct clk H Hov. by apply tick_lookup_normal.
Qed.

(** *** C3 (amended): restoration always goes through yellow *)

(** C3: in every map reached from the initial signals (as in C8), a
    signal under an active emergency override is restored successfully to
    ["yellow"], in normal mode, started now, with [normal_timing] cleared
    and planned duration [yellow_duration default_timing] (5 s), the
    controller-wide default: the pre-override phase and any per-signal
    timing installed by [update_timing] play no part. *)
Theorem restore_after_override_yellow now0 ops now sid st :
  let states := run eo_dur red_dur setex_ok ops (initialize_default_signals red_dur now0) in
  states !! sid = Some st -> is_emergency_override st = true ->
  restore_normal_operation red_dur now sid states =
    (Success (mkRestoreInfo sid "yellow" now),
     <[sid := mkState sid "yellow" now (yellow_duration default_timing) false "" None]>
       states).
Proof.
  intros states H Hov.
  assert (Hs : states_ok states) by (apply run_ok, initialize_ok).
  destruct (Hs sid st H) as [_ [_ Hnt]]. specialize (Hnt Hov).
  unfold restore_normal_operation. rewrite H, Hov. simpl.
  by destruct (normal_timing st).
Qed.

(** *** C7: a second tick at the same instant changes nothing *)

Lemma tick_fresh_noop ct clk sid states st :
  states !! sid = Some st -> ct <= state_start_time st -> 0 < remaining_time st ->
  tick_signal red_dur ct clk sid states = states.
Proof.
  intros E Hc Hr. unfold tick_signal. rewrite E.
  replace (remaining_time st * us_per_s <=? ct - state_start_time st) with false; [done|].
  symmetry. apply Z.leb_gt. unfold us_per_s. lia.
Qed.

(** C7: for a signal whose phase durations are positive (its timing dict,
    if any, and [DEFAULT_RED_DURATION]), two monitor ticks with the same
    [current_time], the first triggering a restore or transition whose
    clock reading is not earlier than [current_time], leave the map as the
    first tick left it: the second tick makes no phase change. *)
Theorem tick_twice_same_time ct clk1 clk2 sid states :
  0 < red_dur -> ct <= clk1 ->
  (forall st t, states !! sid = Some st -> normal_timing st = Some (NTTiming t) ->
     timing_positive t) ->
  tick_signal red_dur ct clk2 sid (tick_signal red_dur ct clk1 sid states) =
    tick_signal red_dur ct clk1 sid states.
Proof.
  intros Hred Hclk Hpos.
  remember (tick_signal red_dur ct clk1 sid states) as m1 eqn:Hm1.
  unfold tick_signal in Hm1.
  destruct (states !! sid) as [st|] eqn:E.
  2:{ subst m1. unfold tick_signal. by rewrite E. }
  destruct (remaining_time st * us_per_s <=? ct - state_start_time st) eqn:Hf.
  2:{ subst m1. unfold tick_signal. by rewrite E, Hf. }
  destruct (is_emergency_override st) eqn:Hov.
  - unfold restore_normal_operation in Hm1. rewrite E, Hov in Hm1. simpl in Hm1.
    destruct (normal_timing st); simpl in Hm1; subst m1;
      (eapply tick_fresh_noop; [apply lookup_insert_eq | simpl; lia | simpl; unfold default_timing; simpl; lia]).
  - unfold transition_to_next_state in Hm1. rewrite E in Hm1.
    destruct (timing_of (normal_timing st)) as [t|] eqn:Et.
    + assert (Ht : timing_positive t).
      { destruct (normal_timing st) as [[t'|s]|] eqn:En; simpl in Et; try discriminate.
        - injection Et as <-. by apply (Hpos st).
        - injection Et as <-. unfold timing_positive, default_timing; simpl; lia. }
      destruct Ht as (Hr & Hy & Hg).
      destruct (String.eqb (current_state st) "red");
        [|destruct (String.eqb (current_state st) "green")]; subst m1;
        (eapply tick_fresh_noop; [apply lookup_insert_eq | simpl; lia | simpl; lia]).
    + subst m1. unfold tick_signal. rewrite E, Hf, Hov.
      unfold transition_to_next_state. by rewrite E, Et.
Qed.

(** *** C9 (amended): rejected timing updates *)

Lemma validate_fields_error fields cfg :
  (exists f, In f fields /\
     (cfg !! f = None \/ exists v, cfg !! f = Some v /\ ~ positive_int v)) ->
  exists err, validate_fields fields cfg = Some err.
Proof.
  induction fields as [|f0 rest IH]; intros (f & Hin & Hbad); [done|]. simpl.
  destruct (cfg !! f0) as [v0|] eqn:E0; [|by eexists].
  destruct (py_int_value v0) as [z|] eqn:Ez; [|by eexists].
  destruct (z <=? 0) eqn:Hz; [by eexists|].
  apply IH. exists f. split; [|done].
  destruct Hin as [<- | Hin]; [|done].
  exfalso. destruct Hbad as [Hn | (v & Hv & Hnp)]; [congruence|].
  rewrite E0 in Hv. injection Hv as <-. apply Hnp.
  unfold positive_int. rewrite Ez. lia.
Qed.

Lemma create_keeps_existing now sid k st states :
  states !! k = Some st -> create_signal_if_not_exists red_dur now sid states !! k = Some st.
Proof.
  intros H. destruct (decide (sid = k)) as [<-|Hne].
  - by rewrite (create_existing now sid states st H).
  - by rewrite create_lookup_other.
Qed.

(** C9: an [update_timing] whose configuration lacks one of
    [red_duration], [yellow_duration], [green_duration], or has for one of
    them a value that is not an [int] (a [bool] counts as one) greater than
    0, returns a failure dict and installs no timing: every existing record
    is unchanged.  The map is not left as it was, though: the signal is
    created (at red, default timing) before the configuration is
    validated, so an unknown signal id gains a record. *)
Theorem update_timing_rejects_invalid now sid cfg states :
  (exists f, In f required_fields /\
     (cfg !! f = None \/ exists v, cfg !! f = Some v /\ ~ positive_int v)) ->
  exists err,
    update_timing red_dur now sid cfg states =
      (Failure err, create_signal_if_not_exists red_dur now sid states) /\
    (forall k st, states !! k = Some st ->
       snd (update_timing red_dur now sid cfg states) !! k = Some st).
Proof.
  intros Hbad. destruct (validate_fields_error _ _ Hbad) as [err Herr].
  exists err. unfold update_timing. rewrite Herr. split; [done|].
  intros k st H. by apply create_keeps_existing.
Qed.

(** *** C10: the timing profile does not survive an override *)

Lemma timing_cleared_insert_other sid k st states :
  k <> sid -> timing_cleared sid states -> timing_cleared sid (<[k := st]> states).
Proof. intros Hne. unfold timing_cleared. by rewrite lookup_insert_ne. Qed.

Lemma timing_cleared_insert_self sid st states :
  (is_emergency_override st = false -> normal_timing st = None) ->
  timing_cleared sid (<[sid := st]> states).
Proof.
  intros Hst. unfold timing_cleared. rewrite lookup_insert_eq.
  split; [by eexists|]. intros st' [= <-]. done.
Qed.

Lemma create_cleared now k sid states :
  timing_cleared sid states ->
  timing_cleared sid (create_signal_if_not_exists red_dur now k states).
Proof.
  intros [[st Hst] Hn]. destruct (decide (k = sid)) as [<-|Hne].
  - rewrite (create_existing now k states st Hst). split; [by eexists|done].
  - unfold timing_cleared. rewrite create_lookup_other by done. split; [by eexists|done].
Qed.

Lemma emergency_override_some now k d r states :
  exists d', emergency_override eo_dur red_dur now k d r states =
             emergency_override eo_dur red_dur now k (Some d') r states.
Proof. destruct d as [d'|]; [by exists d' | by exists eo_dur]. Qed.

Lemma override_cleared now k d r sid states :
  timing_cleared sid states ->
  timing_cleared sid (snd (emergency_override eo_dur red_dur now k d r states)).
Proof.
  intros Hc. destruct (emergency_override_some now k d r states) as [d' ->].
  rewrite emergency_override_eq. simpl.
  destruct (decide (k = sid)) as [<-|Hne].
  - by apply timing_cleared_insert_self.
  - by apply timing_cleared_insert_other, create_cleared.
Qed.

Lemma restore_cleared now k sid states :
  timing_cleared sid states ->
  timing_cleared sid (snd (restore_normal_operation red_dur now k states)).
Proof.
  intros Hc. unfold restore_normal_operation.
  destruct (states !! k) as [cur|]; [|done].
  destruct (negb (is_emergency_override cur)); [done|].
  destruct (decide (k = sid)) as [<-|Hne];
    destruct (normal_timing cur); simpl;
    first [ by apply timing_cleared_insert_self
          | by apply timing_cleared_insert_other ].
Qed.

Lemma update_timing_cleared now k cfg sid states :
  k <> sid -> timing_cleared sid states ->
  timing_cleared sid (snd (update_timing red_dur now k cfg states)).
Proof.
  intros Hne Hc. pose proof (create_cleared now k sid states Hc) as Hc1.
  unfold update_timing.
  destruct (validate_fields required_fields cfg); [done|].
  destruct (create_signal_if_not_exists red_dur now k states !! k); [|done].
  by apply timing_cleared_insert_other.
Qed.

Lemma tick_cleared ct clk k sid states :
  timing_cleared sid states ->
  timing_cleared sid (tick_signal red_dur ct clk k states).
Proof.
  intros Hc. unfold tick_signal.
  destruct (states !! k) as [st|] eqn:E; [|done].
  destruct (_ <=? _); [|done].
  destruct (is_emergency_override st) eqn:Hov; [by apply restore_cleared|].
  unfold transition_to_next_state. rewrite E.
  destruct (timing_of (normal_timing st)); [|done].
  destruct (decide (k = sid)) as [<-|Hne].
  - assert (Hn : normal_timing st = None) by (apply (proj2 Hc); done).
    destruct (String.eqb (current_state st) "red");
      [|destruct (String.eqb (current_state st) "green")];
      apply timing_cleared_insert_self; done.
  - destruct (String.eqb (current_state st) "red");
      [|destruct (String.eqb (current_state st) "green")];
      by apply timing_cleared_insert_other.
Qed.

Lemma plan_loop_cleared start interval duration i sigs sid states :
  timing_cleared sid states ->
  timing_cleared sid (snd (plan_loop red_dur start interval duration i sigs states)).
Proof.
  revert i states. induction sigs as [|k rest IH]; intros i states Hc; simpl; [done|].
  destruct (add_seconds start (i * interval)); simpl; [|by apply create_cleared].
  destruct (plan_loop red_dur start interval duration (i + 1) rest _) as [r st2] eqn:E.
  simpl. specialize (IH (i + 1) (create_signal_if_not_exists red_dur start k states)).
  rewrite E in IH. by apply IH, create_cleared.
Qed.

Lemma execute_plan_cleared now n plan sid states :
  timing_cleared sid states ->
  timing_cleared sid (snd (execute_plan eo_dur red_dur setex_ok now n plan states)).
Proof.
  revert states. induction plan as [|e rest IH]; intros states Hc; simpl; [done|].
  destruct (if pe_delay_from_start e =? 0 then _ else _) as [ok st1] eqn:E1.
  assert (Hc1 : timing_cleared sid st1).
  { destruct (pe_delay_from_start e =? 0).
    - destruct (emergency_override _ _ _ _ _ _ _) as [res st'] eqn:Eo.
      injection E1 as _ <-.
      pose proof (override_cleared now (pe_signal_id e) (Some (pe_green_duration e))
                    (corridor_reason n) sid states Hc) as Ho.
      by rewrite Eo in Ho.
    - by injection E1 as _ <-. }
  specialize (IH st1 Hc1).
  destruct (execute_plan eo_dur red_dur setex_ok now n rest st1) as [[succ failed] st2].
  by destruct ok.
Qed.

Lemma coordinate_cleared now sigs duration sid states :
  timing_cleared sid states ->
  timing_cleared sid
    (snd (coordinate_green_corridor eo_dur red_dur setex_ok now sigs duration states)).
Proof.
  intros Hc. unfold coordinate_green_corridor.
  destruct sigs as [|s0 rest]; [done|].
  pose proof (plan_loop_cleared now (Z.max 10 (duration / Z.of_nat (length (s0 :: rest))))
                duration 0 (s0 :: rest) sid states Hc) as Hp.
  destruct (plan_loop _ _ _ _ _ _ _) as [[plan|] st1]; simpl in Hp; [|done].
  pose proof (execute_plan_cleared now (length (s0 :: rest)) plan sid st1 Hp) as He.
  destruct (execute_plan _ _ _ _ _ _ _) as [[succ failed] st2].
  by destruct (add_seconds now duration).
Qed.

Lemma run_cleared ops sid states :
  Forall (fun op => ~ updates_timing_of sid op) ops ->
  timing_cleared sid states ->
  timing_cleared sid (run eo_dur red_dur setex_ok ops states).
Proof.
  revert states. induction ops as [|op ops IH]; intros states Hops Hc; simpl; [done|].
  inversion Hops as [|? ? Hop Hrest]; subst.
  apply IH; [done|]. destruct op; simpl in *.
  - by apply create_cleared.
  - by apply override_cleared.
  - by apply restore_cleared.
  - by apply update_timing_cleared.
  - by apply tick_cleared.
  - by apply coordinate_cleared.
Qed.

(** C10: after a successful [restore_normal_operation] the signal's
    [normal_timing] is [None]; along any later run of operations that does
    not call [update_timing] on that signal, whenever the signal is in
    normal mode its [normal_timing] is [None], so its transitions use
    [default_timing].  And an override of a signal not already overridden
    replaces its [normal_timing] (whatever timing profile it held) by the
    snapshot of its phase, planned duration and start time, so a profile
    installed by [update_timing] does not survive an override and restore. *)
Theorem restore_clears_normal_timing now sid states info states' ops :
  restore_normal_operation red_dur now sid states = (Success info, states') ->
  Forall (fun op => ~ updates_timing_of sid op) ops ->
  (exists st, states' !! sid = Some st /\ normal_timing st = None) /\
  (forall st, run eo_dur red_dur setex_ok ops states' !! sid = Some st ->
     is_emergency_override st = false ->
     normal_timing st = None /\ timing_of (normal_timing st) = Some default_timing) /\
  (forall now' k d r m cur, m !! k = Some cur -> is_emergency_override cur = false ->
     exists st', snd (emergency_override eo_dur red_dur now' k d r m) !! k = Some st' /\
       normal_timing st' = Some (NTSnapshot (mkSnapshot (current_state cur)
                                  (remaining_time cur) (state_start_time cur)))).
Proof.
  intros Hr Hops.
  assert (H0 : timing_cleared sid states' /\
               exists st, states' !! sid = Some st /\ normal_timing st = None).
  { unfold restore_normal_operation in Hr.
    destruct (states !! sid) as [cur|]; [|discriminate].
    destruct (negb (is_emergency_override cur)); [discriminate|].
    destruct (normal_timing cur); [|discriminate].
    injection Hr as _ <-. split.
    - by apply timing_cleared_insert_self.
    - eexists. by rewrite lookup_insert_eq. }
  destruct H0 as [Hc Hst]. split; [done|]. split.
  - intros st H Hov. pose proof (run_cleared ops sid states' Hops Hc) as [_ Hn].
    specialize (Hn st H Hov). by rewrite Hn.
  - intros now' k d r m cur Hk Hov.
    destruct (emergency_override_some now' k d r m) as [d' ->].
    rewrite emergency_override_eq. simpl. eexists.
    rewrite lookup_insert_eq. split; [done|]. simpl. by rewrite Hk; simpl; rewrite Hov.
Qed.

(** *** The corridor plan *)

Lemma add_seconds_in_range t d :
  datetime_min_us <= t + d * us_per_s <= datetime_max_us ->
  add_seconds t d = Some (t + d * us_per_s).
Proof.
  intros Hr. unfold add_seconds.
  replace ((datetime_min_us <=? t + d * us_per_s) && (t + d * us_per_s <=? datetime_max_us))
    with true; [done|].
  symmetry. apply andb_true_iff. split; apply Z.leb_le; lia.
Qed.

Lemma add_seconds_value t d r : add_seconds t d = Some r -> r = t + d * us_per_s.
Proof. unfold add_seconds. destruct (_ && _); congruence. Qed.

(** For a [datetime] [t], a [d] that [timedelta] itself rejects also
    leaves the range of [t + d]: [add_seconds] covers both exceptions. *)
Lemma add_seconds_timedelta_overflow t d :
  datetime_min_us <= t <= datetime_max_us -> timedelta_seconds_error d <> None ->
  add_seconds t d = None.
Proof.
  intros Ht Hd. unfold timedelta_seconds_error in Hd.
  assert (Hdays : d / 86400 < -999999999 \/ 999999999 < d / 86400).
  { destruct (Z.leb_spec (-999999999) (d / 86400)); [|lia].
    destruct (Z.leb_spec (d / 86400) 999999999); [|lia].
    exfalso. apply Hd. 
    replace ((-2147483648 <=? d / 86400) && (d / 86400 <=? 2147483647)) with true
      by (symmetry; apply andb_true_iff; split; apply Z.leb_le; lia).
    reflexivity. }
  unfold add_seconds, datetime_min_us, datetime_max_us, us_per_s in *.
  replace ((-62135596800000000 <=? t + d * 1000000) && (t + d * 1000000 <=? 253402300799999999))
    with false; [done|].
  symmetry. apply andb_false_iff.
  destruct Hdays as [Hl|Hl].
  - left. apply Z.leb_gt.
    destruct (Z.lt_ge_cases d (86400 * -999999999)) as [Hc|Hc]; [lia|].
    pose proof (Z.div_le_lower_bound d 86400 (-999999999) ltac:(lia) Hc). lia.
  - right. apply Z.leb_gt.
    destruct (Z.lt_ge_cases d (86400 * 1000000000)) as [Hc|Hc]; [|lia].
    pose proof (Z.div_lt_upper_bound d 86400 1000000000 ltac:(lia) Hc). lia.
Qed.


Lemma corridor_plan_from_cons start interval duration k sid rest :
  corridor_plan_from start interval duration k (sid :: rest) =
    (if 0 <? pe_green_duration (corridor_entry_spec start interval duration k sid)
     then [corridor_entry_spec start interval duration k sid] else []) ++
    corridor_plan_from start interval duration (S k) rest.
Proof.
  unfold corridor_plan_from. rewrite imap_cons. simpl.
  rewrite Nat.add_0_r.
  assert (Heq : imap ((fun i sid0 => corridor_entry_spec start interval duration (k + i) sid0) ∘ S) rest
              = imap (fun i sid0 => corridor_entry_spec start interval duration (S k + i) sid0) rest).
  { apply imap_ext. intros i x _. simpl. by rewrite Nat.add_succ_r. }
  rewrite Heq. by destruct (0 <? _).
Qed.

Lemma plan_loop_spec start interval duration k sigs states p :
  fst (plan_loop red_dur start interval duration (Z.of_nat k) sigs states) = Success p ->
  p = corridor_plan_from start interval duration k sigs.
Proof.
  revert k states p. induction sigs as [|sid rest IH]; intros k states p H; simpl in H.
  - by injection H as <-.
  - destruct (add_seconds start (Z.of_nat k * interval)) as [gst|] eqn:Ea; [|done].
    apply add_seconds_value in Ea.
    replace (Z.of_nat k + 1) with (Z.of_nat (S k)) in H by lia.
    destruct (plan_loop red_dur start interval duration (Z.of_nat (S k)) rest _)
      as [[p'|] st2] eqn:E; simpl in H; [|done].
    injection H as <-. rewrite corridor_plan_from_cons.
    rewrite <- (IH (S k) _ p') by (by rewrite E).
    unfold corridor_entry_spec. rewrite <- Ea. by destruct (0 <? _).
Qed.

Lemma plan_loop_some start interval duration k sigs states :
  (forall i, (i < length sigs)%nat ->
     add_seconds start (Z.of_nat (k + i) * interval) <> None) ->
  exists p, fst (plan_loop red_dur start interval duration (Z.of_nat k) sigs states) = Success p.
Proof.
  revert k states. induction sigs as [|sid rest IH]; intros k states H; simpl; [by eexists|].
  destruct (add_seconds start (Z.of_nat k * interval)) as [gst|] eqn:Ea.
  2:{ exfalso. apply (H 0%nat); [simpl; lia|]. by rewrite Nat.add_0_r. }
  replace (Z.of_nat k + 1) with (Z.of_nat (S k)) by lia.
  destruct (IH (S k) (create_signal_if_not_exists red_dur start sid states)) as [p' Hp'].
  { intros i Hi. replace (S k + i)%nat with (k + S i)%nat by lia. apply H. simpl. lia. }
  destruct (plan_loop red_dur start interval duration (Z.of_nat (S k)) rest _)
    as [r st2]. simpl in *. subst r. by eexists.
Qed.

Lemma corridor_plan_from_late start interval duration k sigs :
  0 <= interval -> duration <= Z.of_nat k * interval ->
  corridor_plan_from start interval duration k sigs = [].
Proof.
  revert k. induction sigs as [|sid rest IH]; intros k Hi Hd; [done|].
  rewrite corridor_plan_from_cons. simpl.
  replace (0 <? Z.min 60 (duration - Z.of_nat k * interval)) with false
    by (symmetry; apply Z.ltb_ge; lia).
  apply IH; [done|]. lia.
Qed.

Lemma corridor_plan_from_sorted start interval duration k sigs :
  0 <= interval ->
  delays_nondecreasing (corridor_plan_from start interval duration k sigs) /\
  Forall (fun e => Z.of_nat k * interval <= pe_delay_from_start e)
    (corridor_plan_from start interval duration k sigs).
Proof.
  unfold delays_nondecreasing.
  revert k. induction sigs as [|sid rest IH]; intros k Hi; [split; constructor|].
  rewrite corridor_plan_from_cons.
  destruct (IH (S k) Hi) as [Hs Hf].
  assert (Hf' : Forall (fun e => Z.of_nat k * interval <= pe_delay_from_start e)
                  (corridor_plan_from start interval duration (S k) rest)).
  { eapply Forall_impl; [exact Hf|]. intros e He. simpl in He. rewrite Nat2Z.inj_succ in He. nia. }
  destruct (0 <? _); simpl; [|done].
  split.
  - constructor; [done|].
    eapply Forall_impl; [exact Hf|]. intros e He. simpl in *.
    rewrite Nat2Z.inj_succ in He. nia.
  - constructor; [simpl; lia | done].
Qed.

Lemma corridor_plan_spec_head start duration sigs e rest :
  corridor_plan_spec start duration sigs = e :: rest -> pe_delay_from_start e = 0.
Proof.
  unfold corridor_plan_spec.
  set (iv := Z.max 10 (duration / Z.of_nat (length sigs))).
  assert (Hiv : 0 <= iv) by (unfold iv; lia).
  destruct sigs as [|s0 srest]; [done|].
  rewrite corridor_plan_from_cons.
  destruct (0 <? pe_green_duration (corridor_entry_spec start iv duration 0 s0)) eqn:Hg.
  - intros H. injection H as <- _. reflexivity.
  - rewrite corridor_plan_from_late; [done | done |].
    apply Z.ltb_ge in Hg. simpl in Hg. lia.
Qed.

Lemma coordinate_done_inv now sigs duration states rep states' :
  coordinate_green_corridor eo_dur red_dur setex_ok now sigs duration states =
    (CorridorDone rep, states') ->
  sigs <> [] /\
  fst (plan_loop red_dur now (Z.max 10 (duration / Z.of_nat (length sigs))) duration 0
         sigs states) = Success (cr_coordination_plan rep) /\
  execute_plan eo_dur red_dur setex_ok now (length sigs) (cr_coordination_plan rep)
    (snd (plan_loop red_dur now (Z.max 10 (duration / Z.of_nat (length sigs))) duration 0
            sigs states)) =
    (cr_successful_coordinates rep, cr_failed_coordinates rep, states') /\
  cr_success rep = negb (length (cr_successful_coordinates rep) =? 0)%nat.
Proof.
  unfold coordinate_green_corridor. intros H.
  destruct sigs as [|s0 rest]; [discriminate|].
  destruct (plan_loop _ _ _ _ _ _ _) as [[plan|] st1]; [|discriminate].
  destruct (execute_plan _ _ _ _ _ _ _) as [[succ failed] st2] eqn:Ex.
  destruct (add_seconds now duration); [|discriminate].
  injection H as <- <-. simpl. done.
Qed.

Lemma coordinate_done_intro now sigs duration states plan :
  sigs <> [] ->
  fst (plan_loop red_dur now (Z.max 10 (duration / Z.of_nat (length sigs))) duration 0
         sigs states) = Success plan ->
  add_seconds now duration <> None ->
  exists rep states',
    coordinate_green_corridor eo_dur red_dur setex_ok now sigs duration states =
      (CorridorDone rep, states') /\ cr_coordination_plan rep = plan.
Proof.
  intros Hne Hp Ha. unfold coordinate_green_corridor.
  destruct sigs as [|s0 rest]; [done|].
  destruct (plan_loop _ _ _ _ _ _ _) as [r st1]. simpl in Hp. subst r.
  destruct (execute_plan _ _ _ _ _ _ _) as [[succ failed] st2].
  destruct (add_seconds now duration); [|done].
  by do 2 eexists.
Qed.

Lemma execute_plan_partition now n plan states succ failed states' :
  execute_plan eo_dur red_dur setex_ok now n plan states = (succ, failed, states') ->
  succ ++ map fst failed ≡ₚ map pe_signal_id plan.
Proof.
  revert states succ failed states'.
  induction plan as [|e rest IH]; intros states succ failed states' H; simpl in H.
  - by injection H as <- <- _.
  - destruct (if pe_delay_from_start e =? 0 then _ else _) as [ok st1].
    destruct (execute_plan eo_dur red_dur setex_ok now n rest st1)
      as [[succ' failed'] st2] eqn:E.
    specialize (IH st1 succ' failed' st2 E).
    destruct ok; injection H as <- <- _; simpl.
    + rewrite <- Permutation_middle. by constructor.
    + by constructor.
Qed.

(** *** C5 (amended): the corridor plan *)

(** C5: whenever [coordinate_green_corridor] returns its report (no
    [datetime] computed on the way leaves the representable range), the
    reported plan is the partition of section 4.3: with
    [interval = max(10, duration // n)], route entry [i] gets delay
    [i * interval] and green duration [min(60, duration - delay)], entries
    with a non-positive duration are dropped; the first entry of the plan
    has delay 0 and the delays are non-decreasing along the plan.  In
    particular, [coordinate(["a","b"], 60)] at any instant at least 60 s
    before [datetime.max] returns the plan
    [[{a, delay 0, duration 60}; {b, delay 30, duration 30}]]. *)
Theorem corridor_plan_partition :
  (forall now sigs duration states rep states',
     coordinate_green_corridor eo_dur red_dur setex_ok now sigs duration states =
       (CorridorDone rep, states') ->
     cr_coordination_plan rep = corridor_plan_spec now duration sigs /\
     (forall e rest, cr_coordination_plan rep = e :: rest -> pe_delay_from_start e = 0) /\
     delays_nondecreasing (cr_coordination_plan rep)) /\
  (forall now states,
     datetime_min_us <= now -> now + 60 * us_per_s <= datetime_max_us ->
     exists rep states',
       coordinate_green_corridor eo_dur red_dur setex_ok now ["a"; "b"]%string 60 states =
         (CorridorDone rep, states') /\
       cr_coordination_plan rep =
         [mkPlanEntry "a" now 60 0; mkPlanEntry "b" (now + 30 * us_per_s) 30 30]).
Proof.
  split.
  - intros now sigs duration states rep states' H.
    destruct (coordinate_done_inv _ _ _ _ _ _ H) as (_ & Hp & _).
    apply (plan_loop_spec _ _ _ 0) in Hp.
    assert (Hspec : cr_coordination_plan rep = corridor_plan_spec now duration sigs)
      by (rewrite Hp; reflexivity).
    split; [done|]. split.
    + intros e rest He. apply (corridor_plan_spec_head now duration sigs e rest).
      by rewrite <- Hspec.
    + rewrite Hspec. apply corridor_plan_from_sorted. lia.
  - intros now states Hmin Hmax.
    destruct (plan_loop_some now 30 60 0 ["a"; "b"]%string states) as [p Hp].
    { intros i Hi. simpl in Hi.
      rewrite add_seconds_in_range; [done|].
      assert (i = 0 \/ i = 1)%nat as [-> | ->] by lia; simpl;
        unfold datetime_min_us, datetime_max_us, us_per_s in *; lia. }
    destruct (coordinate_done_intro now ["a"; "b"]%string 60 states p) as (rep & st' & Hc & Hplan).
    + done.
    + exact Hp.
    + rewrite add_seconds_in_range; [done|].
      unfold datetime_min_us, datetime_max_us, us_per_s in *; lia.
    + exists rep, st'. split; [exact Hc|]. rewrite Hplan.
      apply (plan_loop_spec _ _ _ 0) in Hp. rewrite Hp.
      unfold corridor_plan_from, corridor_entry_spec. simpl.
      by rewrite Z.add_0_r.
Qed.

(** *** C6 (amended): the overall corridor result *)

Lemma emergency_override_fst_indep now sid d r s1 s2 :
  fst (emergency_override eo_dur red_dur now sid (Some d) r s1) =
  fst (emergency_override eo_dur red_dur now sid (Some d) r s2).
Proof. by rewrite !emergency_override_eq. Qed.

Lemma execute_plan_results now n plan states S succ failed states' :
  execute_plan eo_dur red_dur setex_ok now n plan states = (succ, failed, states') ->
  succ = map pe_signal_id
           (List.filter (fun e => match corridor_call_error eo_dur red_dur setex_ok now n S e with
                                  | None => true | Some _ => false end) plan) /\
  failed = omap (fun e => (fun err => (pe_signal_id e, err)) <$>
                            corridor_call_error eo_dur red_dur setex_ok now n S e) plan.
Proof.
  revert states succ failed states'.
  induction plan as [|e rest IH]; intros states succ failed states' H; simpl in H.
  - by injection H as <- <- _.
  - destruct (if pe_delay_from_start e =? 0 then _ else _) as [ok st1] eqn:Eok.
    assert (Herr : corridor_call_error eo_dur red_dur setex_ok now n S e = ok).
    { unfold corridor_call_error.
      destruct (pe_delay_from_start e =? 0).
      - rewrite (emergency_override_fst_indep _ _ _ _ S states).
        destruct (emergency_override _ _ _ _ _ _ states) as [res st'].
        injection Eok as <- _. reflexivity.
      - injection Eok as <- _. reflexivity. }
    destruct (execute_plan eo_dur red_dur setex_ok now n rest st1)
      as [[succ' failed'] st2] eqn:E.
    destruct (IH _ _ _ _ E) as [Hs Hf].
    simpl. rewrite Herr.
    destruct ok; injection H as <- <- _; simpl; rewrite Hs, Hf; done.
Qed.

Lemma plan_loop_outcome start interval duration k sigs states :
  match fst (plan_loop red_dur start interval duration (Z.of_nat k) sigs states) with
  | Success _ => forall i, (i < length sigs)%nat ->
                   add_seconds start (Z.of_nat (k + i) * interval) <> None
  | Failure err => exists i, (i < length sigs)%nat /\
                   add_seconds start (Z.of_nat (k + i) * interval) = None /\
                   err = overflow_error (Z.of_nat (k + i) * interval)
  end.
Proof.
  revert k states. induction sigs as [|sid rest IH]; intros k states; simpl.
  - intros i Hi. simpl in Hi. lia.
  - destruct (add_seconds start (Z.of_nat k * interval)) as [gst|] eqn:Ea.
    + replace (Z.of_nat k + 1) with (Z.of_nat (S k)) by lia.
      specialize (IH (S k) (create_signal_if_not_exists red_dur start sid states)).
      destruct (plan_loop red_dur start interval duration (Z.of_nat (S k)) rest _)
        as [[p|err] st2]; simpl in *.
      * intros [|i] Hi; [by rewrite Nat.add_0_r, Ea|].
        replace (k + S i)%nat with (S k + i)%nat by lia. apply IH. lia.
      * destruct IH as (i & Hi & Hn & ->). exists (S i).
        replace (k + S i)%nat with (S k + i)%nat by lia. split; [lia|]. done.
    + simpl. exists 0%nat. rewrite Nat.add_0_r. split; [lia|]. done.
Qed.

(** C6: when [coordinate_green_corridor] returns its report, the report's
    ["success"] is true exactly when [successful_coordinates] is non-empty,
    so a partial success is a success; [successful_coordinates] lists, in
    plan order, the plan entries whose call succeeded, and
    [failed_coordinates] pairs every other entry with the error its call
    returned (the immediate override of the delay-0 entry, whose result
    does not depend on the signal map, or the scheduling of a later one);
    and no [datetime] computed on the way overflowed.  When one does (the
    start time of a route entry or the end time of the corridor), the call
    returns an error dict with the [OverflowError]'s message instead, even
    if the first signal's override already succeeded. *)
Theorem corridor_success_iff_coordinated now sigs duration states :
  sigs <> [] ->
  let interval := Z.max 10 (duration / Z.of_nat (length sigs)) in
  let call_error := corridor_call_error eo_dur red_dur setex_ok now (length sigs) states in
  match fst (coordinate_green_corridor eo_dur red_dur setex_ok now sigs duration states) with
  | CorridorDone rep =>
      (cr_success rep = true <-> cr_successful_coordinates rep <> []) /\
      cr_successful_coordinates rep =
        map pe_signal_id
          (List.filter (fun e => match call_error e with None => true | Some _ => false end)
             (cr_coordination_plan rep)) /\
      cr_failed_coordinates rep =
        omap (fun e => (fun err => (pe_signal_id e, err)) <$> call_error e)
          (cr_coordination_plan rep) /\
      (forall i, (i < length sigs)%nat -> add_seconds now (Z.of_nat i * interval) <> None) /\
      add_seconds now duration <> None
  | CorridorError err =>
      exists d, add_seconds now d = None /\ err = overflow_error d /\
        ((exists i, (i < length sigs)%nat /\ d = Z.of_nat i * interval) \/ d = duration)
  end.
Proof.
  intros Hne interval call_error.
  destruct sigs as [|s0 rest]; [done|].
  pose proof (plan_loop_outcome now interval duration 0 (s0 :: rest) states) as Hp.
  change (Z.of_nat 0) with 0 in Hp.
  unfold coordinate_green_corridor. cbv beta iota zeta. fold interval.
  destruct (plan_loop red_dur now interval duration 0 (s0 :: rest) states)
    as [[plan|err] st1] eqn:Epl; simpl in Hp |- *.
  - destruct (execute_plan eo_dur red_dur setex_ok now (S (length rest)) plan st1)
      as [[succ failed] st2] eqn:Ex.
    destruct (execute_plan_results _ _ _ _ states _ _ _ Ex) as [Hs Hf].
    destruct (add_seconds now duration) as [fin|] eqn:Ed; simpl.
    + split; [|split; [exact Hs|split; [exact Hf|split; [exact Hp|done]]]].
      destruct succ; simpl; split; done.
    + exists duration. split; [done|]. split; [done|]. by right.
  - destruct Hp as (i & Hi & Hn & ->). exists (Z.of_nat i * interval).
    split; [done|]. split; [done|]. left. by exists i.
Qed.

End Proofs.

(** ** Counterexamples and witnesses at concrete inputs *)

(** C1: with a duration of 10^12 s (about 31 700 years) the end time is
    past [datetime.max]: the override is applied, but the result dict
    reports a failure. *)
Lemma emergency_override_huge_duration_fails :
  fst (emergency_override 60 45 t2026 "clock_tower" (Some (10 ^ 12)) "ambulance" init2026)
    = Failure "date value out of range" /\
  exists st,
    snd (emergency_override 60 45 t2026 "clock_tower" (Some (10 ^ 12)) "ambulance" init2026)
      !! "clock_tower" = Some st /\
    current_state st = "green" /\ is_emergency_override st = true.
Proof. vm_compute. split; [reflexivity|]. eexists. split; [reflexivity|]. auto. Qed.

Lemma emergency_override_positive_witness :
  0 < 60 /\
  is_success (fst (emergency_override 60 45 t2026 "clock_tower" (Some 60) "ambulance" init2026))
    = true.
Proof.
  split; [lia|].
  generalize (emergency_override_positive 60 45 t2026 "clock_tower" 60 "ambulance" init2026
                ltac:(lia)).
  destruct (emergency_override 60 45 t2026 "clock_tower" (Some 60) "ambulance" init2026)
    as [res st'].
  intros (_ & _ & ->). vm_compute. reflexivity.
Defined.

(** C2: a zero duration is not rejected: the call succeeds and the
    signal, in normal mode before, is now overridden. *)
Lemma emergency_override_zero_duration_accepted :
  is_success (fst (emergency_override 60 45 t2026 "clock_tower" (Some 0) "test" init2026))
    = true /\
  (exists st, init2026 !! "clock_tower" = Some st /\ is_emergency_override st = false) /\
  (exists st,
     snd (emergency_override 60 45 t2026 "clock_tower" (Some 0) "test" init2026)
       !! "clock_tower" = Some st /\ is_emergency_override st = true).
Proof.
  vm_compute. split; [reflexivity|].
  split; (eexists; split; [reflexivity|reflexivity]).
Qed.

Lemma emergency_override_nonpositive_witness :
  is_success (fst (emergency_override 60 45 t2026 "clock_tower" (Some (-5)) "test" init2026))
    = true.
Proof.
  destruct (emergency_override_nonpositive 60 45 t2026 "clock_tower" (-5) "test" init2026
              ltac:(lia)
              ltac:(unfold datetime_min_us, datetime_max_us, t2026, us_per_s; lia))
    as (st & -> & _).
  reflexivity.
Defined.

(** C3: override, then install a timing with a 7 s yellow while the
    override lasts: the signal's timing profile says 7 s, but the
    restoration plans [default_timing]'s 5 s. *)
Lemma restore_ignores_signal_yellow :
  let states := run 60 45 redis_up
                  [OpOverride t2026 "clock_tower" (Some 60) "ambulance";
                   OpUpdateTiming (t2026 + 1000000) "clock_tower" cfg_custom] init2026 in
  (exists st, states !! "clock_tower" = Some st /\ is_emergency_override st = true /\
     timing_of (normal_timing st) = Some (mkTiming 40 7 20 67)) /\
  (exists st, snd (restore_normal_operation 45 (t2026 + 2000000) "clock_tower" states)
                !! "clock_tower" = Some st /\
              current_state st = "yellow" /\ remaining_time st = 5).
Proof.
  vm_compute. split; (eexists; split; [reflexivity|]); auto.
Qed.

Lemma restore_after_override_yellow_witness :
  is_success (fst (restore_normal_operation 45 (t2026 + 1000000) "clock_tower"
    (run 60 45 redis_up [OpOverride t2026 "clock_tower" (Some 60) "ambulance"]
       (initialize_default_signals 45 t2026)))) = true.
Proof.
  rewrite (restore_after_override_yellow 60 45 redis_up t2026
             [OpOverride t2026 "clock_tower" (Some 60) "ambulance"] (t2026 + 1000000)
             "clock_tower"
             (mkState "clock_tower" "green" t2026 60 true "ambulance"
                (Some (NTSnapshot (mkSnapshot "red" 45 t2026))))
             ltac:(vm_compute; reflexivity) ltac:(reflexivity)).
  reflexivity.
Defined.

Lemma restore_not_overridden_fails_witness :
  exists err,
    restore_normal_operation 45 t2026 "no_such_signal" init2026 = (Failure err, init2026).
Proof.
  apply (restore_not_overridden_fails 45 t2026 "no_such_signal" init2026).
  left. vm_compute. reflexivity.
Defined.

(** C5: with a total duration of 10^12 s the second signal's start time is
    past [datetime.max]: the call returns an error dict and no plan. *)
Lemma corridor_huge_duration_no_plan :
  fst (coordinate_green_corridor 60 45 redis_up t2026 ["a"; "b"] (10 ^ 12) init2026)
    = CorridorError "date value out of range".
Proof. vm_compute. reflexivity. Qed.

Lemma corridor_plan_partition_witness :
  exists rep states',
    coordinate_green_corridor 60 45 redis_up t2026 ["a"; "b"] 60 init2026 =
      (CorridorDone rep, states') /\
    cr_coordination_plan rep =
      [mkPlanEntry "a" t2026 60 0; mkPlanEntry "b" (t2026 + 30 * us_per_s) 30 30].
Proof.
  apply (proj2 (corridor_plan_partition 60 45 redis_up) t2026 init2026).
  - unfold datetime_min_us, t2026. lia.
  - unfold datetime_max_us, t2026, us_per_s. lia.
Defined.

(** C6: a one-signal corridor of 10^12 s: the override of the signal
    succeeds and is applied, but the end time of the corridor overflows,
    so the overall result is a failure. *)
Lemma corridor_overflow_after_override :
  corridor_success
    (fst (coordinate_green_corridor 60 45 redis_up t2026 ["clock_tower"] (10 ^ 12) init2026))
    = false /\
  is_success (fst (emergency_override 60 45 t2026 "clock_tower" (Some 60) (corridor_reason 1)
                     init2026)) = true /\
  exists st,
    snd (coordinate_green_corridor 60 45 redis_up t2026 ["clock_tower"] (10 ^ 12) init2026)
      !! "clock_tower" = Some st /\ is_emergency_override st = true.
Proof.
  vm_compute. split; [reflexivity|]. split; [reflexivity|].
  eexists. split; reflexivity.
Qed.

Lemma corridor_success_iff_coordinated_witness :
  ["a"; "b"]%string <> [] /\
  exists rep,
    fst (coordinate_green_corridor 60 45 redis_down t2026 ["a"; "b"] 60 init2026) =
      CorridorDone rep /\
    cr_success rep = true /\
    cr_successful_coordinates rep = ["a"]%string /\
    cr_failed_coordinates rep = [("b", "Redis error")]%string.
Proof.
  split; [discriminate|].
  pose proof (corridor_success_iff_coordinated 60 45 redis_down t2026 ["a"; "b"] 60 init2026
                ltac:(discriminate)) as H.
  destruct (fst (coordinate_green_corridor 60 45 redis_down t2026 ["a"; "b"] 60 init2026))
    as [err|rep] eqn:E; [vm_compute in E; discriminate|].
  destruct H as (Hs & Hsucc & Hf & _).
  assert (Hp : cr_coordination_plan rep =
                 [mkPlanEntry "a" t2026 60 0; mkPlanEntry "b" (t2026 + 30 * us_per_s) 30 30])
    by (vm_compute in E; injection E as <-; reflexivity).
  rewrite Hp in Hsucc, Hf.
  exists rep. split; [reflexivity|].
  split; [apply Hs; rewrite Hsucc; vm_compute; discriminate|].
  split; [rewrite Hsucc; vm_compute; reflexivity|].
  rewrite Hf; vm_compute; reflexivity.
Defined.

Lemma tick_twice_same_time_witness :
  let ct := t2026 + 45 * us_per_s in
  tick_signal 45 ct (ct + 1) "clock_tower" (tick_signal 45 ct ct "clock_tower" init2026) =
    tick_signal 45 ct ct "clock_tower" init2026.
Proof.
  apply (tick_twice_same_time 45 (t2026 + 45 * us_per_s) (t2026 + 45 * us_per_s)
           (t2026 + 45 * us_per_s + 1) "clock_tower" init2026).
  - lia.
  - lia.
  - intros st t H1 H2. vm_compute in H1. injection H1 as <-.
    simpl in H2. injection H2 as <-. unfold timing_positive. simpl. lia.
Defined.

(** C9: a timing update of an unknown signal with an empty configuration
    is rejected, but the signal has been created. *)
Lemma update_timing_invalid_creates_signal :
  init2026 !! "new_signal" = None /\
  fst (update_timing 45 t2026 "new_signal" empty init2026)
    = Failure "Missing required field: red_duration" /\
  exists st, snd (update_timing 45 t2026 "new_signal" empty init2026) !! "new_signal"
               = Some st /\ current_state st = "red".
Proof.
  vm_compute. split; [reflexivity|]. split; [reflexivity|].
  eexists. split; reflexivity.
Qed.

Lemma update_timing_rejects_invalid_witness :
  exists err, fst (update_timing 45 t2026 "new_signal" empty init2026) = Failure err.
Proof.
  destruct (update_timing_rejects_invalid 45 t2026 "new_signal" empty init2026)
    as (err & Heq & _).
  - exists "red_duration"%string. split; [left; reflexivity | left; reflexivity].
  - exists err. by rewrite Heq.
Defined.

Lemma restore_clears_normal_timing_witness :
  let states := run 60 45 redis_up [OpOverride t2026 "clock_tower" (Some 60) "ambulance"]
                  init2026 in
  exists st,
    snd (restore_normal_operation 45 (t2026 + 1000000) "clock_tower" states)
      !! "clock_tower" = Some st /\ normal_timing st = None.
Proof.
  intros states.
  apply (restore_clears_normal_timing 60 45 redis_up (t2026 + 1000000) "clock_tower" states
           (mkRestoreInfo "clock_tower" "yellow" (t2026 + 1000000))
           (snd (restore_normal_operation 45 (t2026 + 1000000) "clock_tower" states))
           [OpTick (t2026 + 7000000) (t2026 + 7000000) "clock_tower"]).
  - vm_compute. reflexivity.
  - constructor; [intros []|constructor].
Defined.

(** ** Further properties of the controller *)

(** *** Signal timing optimisation *)

Lemma py_tier_number {A} (v : PyObj) (hi lo : Q) (a b c : A) :
  py_is_number v = true -> exists x, py_tier v hi lo a b c = Some x.
Proof.
  destruct v as [n| | |]; [|discriminate..]. intros _. unfold py_tier, py_gt.
  destruct n; [destruct (negb (Qle_bool q hi)), (negb (Qle_bool q lo))|..]; by eexists.
Qed.

Lemma py_tier_not_number {A} (v : PyObj) (hi lo : Q) (a b c : A) :
  py_is_number v = false -> py_tier v hi lo a b c = None.
Proof. by destruct v. Qed.

Lemma py_tier_cases {A} (v : PyObj) (hi lo : Q) (a b c x : A) :
  py_tier v hi lo a b c = Some x -> x = a \/ x = b \/ x = c.
Proof.
  unfold py_tier. destruct (py_gt v hi) as [[]|]; [|destruct (py_gt v lo) as [[]|]|..];
    intros H; try discriminate; injection H as <-; auto.
Qed.

(** [v > c] is monotone in [v] for Python's [<=]. *)
Lemma py_gt_mono v w c :
  py_le v w = true -> py_gt v c = Some true -> py_gt w c = Some true.
Proof.
  destruct v as [[x| | |]| | |], w as [[y| | |]| | |]; simpl; try discriminate; auto.
  intros Hle Hgt. injection Hgt as Hgt. apply negb_true_iff in Hgt.
  apply Qle_bool_iff in Hle. f_equal. apply negb_true_iff.
  destruct (Qle_bool y c) eqn:E; [|done]. apply Qle_bool_iff in E.
  exfalso. assert (Hxc : (x <= c)%Q) by (eapply Qle_trans; eauto).
  apply Qle_bool_iff in Hxc. congruence.
Qed.

Lemma py_le_number_r v w : py_le v w = true -> py_is_number w = true.
Proof. by destruct v, w. Qed.

(** A tier is monotone in the compared value. *)
Lemma py_tier_mono {A} (f : A -> Z) v w hi lo a b c x y :
  f c <= f b <= f a ->
  py_le v w = true ->
  py_tier v hi lo a b c = Some x -> py_tier w hi lo a b c = Some y -> f x <= f y.
Proof.
  intros Hf Hle. unfold py_tier.
  destruct (py_gt v hi) as [[]|] eqn:Ehi; [|destruct (py_gt v lo) as [[]|] eqn:Elo|..];
    try discriminate; intros Hx; injection Hx as <-.
  - rewrite (py_gt_mono v w hi Hle Ehi). intros Hy; injection Hy as <-. lia.
  - destruct (py_gt w hi) as [[]|]; [|destruct (py_gt w lo) as [[]|] eqn:Elo'|];
      intros Hy; try discriminate; injection Hy as <-; try lia.
    rewrite (py_gt_mono v w lo Hle Elo) in Elo'. discriminate.
  - destruct (py_gt w hi) as [[]|]; [|destruct (py_gt w lo) as [[]|]|];
      intros Hy; try discriminate; injection Hy as <-; lia.
Qed.

Lemma adaptive_algorithm_inv gdef rdef sid d g r y c a b e :
  adaptive_algorithm gdef rdef sid d = TCAdaptive g r y c a b e ->
  exists gd rd gq gw,
    py_tier a traffic_density_threshold_high traffic_density_threshold_medium
      (15, -10) (5, -5) (-5, 5) = Some (gd, rd) /\
    py_tier b 10 5 10 5 0 = Some gq /\ py_tier e 60 30 10 5 0 = Some gw /\
    g = Z.max 20 (Z.min 60 (gdef + (gd + gq + gw))) /\
    r = Z.max 30 (Z.min 90 (rdef + rd)) /\ y = 5 /\ c = g + r + 5.
Proof.
  unfold adaptive_algorithm.
  destruct (py_tier _ _ _ (15, -10) _ _) as [[gd rd]|] eqn:E1; [|discriminate].
  destruct (py_tier _ 10 5 10 5 0) as [gq|] eqn:E2; [|discriminate].
  destruct (py_tier _ 60 30 10 5 0) as [gw|] eqn:E3; [|discriminate].
  intros H. injection H as <- <- <- <- <- <- <-. eauto 20.
Qed.

(** X5: [optimize_signal_timing] with the [adaptive] algorithm always
    answers with a success dict.  When the density, queue length and
    waiting time it reads (defaults 0.5, 0 and 0) are all numbers, the
    timing has a green time between 20 and 60 s, a red time between 30 and
    90 s, a yellow time of 5 s and a cycle of green + red + 5 s, whatever
    the configured defaults; when one of them is not a number, the
    comparison's [TypeError] yields the default timing. *)
Theorem optimize_adaptive_bounds gdef rdef webster sid traffic_data emergency_data :
  exists t,
    optimize_signal_timing gdef rdef webster sid "adaptive" traffic_data emergency_data =
      OptSuccess sid "adaptive" t /\
    if adaptive_inputs_numeric (default empty traffic_data) then
      exists g r a b e, t = TCAdaptive g r 5 (g + r + 5) a b e /\
        20 <= g <= 60 /\ 30 <= r <= 90
    else t = get_default_timing gdef rdef.
Proof.
  eexists. split; [reflexivity|]. simpl.
  set (d := default empty traffic_data).
  unfold adaptive_inputs_numeric, adaptive_algorithm.
  destruct (py_is_number (dict_get d "traffic_density" _)) eqn:N1;
    [|by rewrite py_tier_not_number].
  destruct (py_tier_number _ traffic_density_threshold_high traffic_density_threshold_medium
              (15, -10) (5, -5) (-5, 5) N1) as [[gd rd] ->].
  destruct (py_is_number (dict_get d "queue_length" _)) eqn:N2;
    [|by rewrite py_tier_not_number].
  destruct (py_tier_number _ 10 5 10 5 0 N2) as [gq ->].
  destruct (py_is_number (dict_get d "avg_waiting_time" _)) eqn:N3;
    [|by rewrite py_tier_not_number].
  destruct (py_tier_number _ 60 30 10 5 0 N3) as [gw ->].
  simpl. do 5 eexists. split; [reflexivity|]. lia.
Qed.

(** X6: the adaptive timing is monotone in the traffic it is given: with
    a density, a queue length and a waiting time each at least as large
    (Python's [<=]), the green time is at least as long and the red time at
    most as long. *)
Theorem adaptive_timing_monotone gdef rdef sid d1 d2 g1 r1 y1 c1 a1 b1 e1
    g2 r2 y2 c2 a2 b2 e2 :
  adaptive_algorithm gdef rdef sid d1 = TCAdaptive g1 r1 y1 c1 a1 b1 e1 ->
  adaptive_algorithm gdef rdef sid d2 = TCAdaptive g2 r2 y2 c2 a2 b2 e2 ->
  py_le a1 a2 = true -> py_le b1 b2 = true -> py_le e1 e2 = true ->
  g1 <= g2 /\ r2 <= r1.
Proof.
  intros H1 H2 Ha Hb He.
  apply adaptive_algorithm_inv in H1 as (gd1 & rd1 & gq1 & gw1 & T1 & Q1 & W1 & -> & -> & _).
  apply adaptive_algorithm_inv in H2 as (gd2 & rd2 & gq2 & gw2 & T2 & Q2 & W2 & -> & -> & _).
  set (th := traffic_density_threshold_high). set (tm := traffic_density_threshold_medium).
  pose proof (py_tier_mono fst a1 a2 th tm (15, -10) (5, -5) (-5, 5) (gd1, rd1) (gd2, rd2)
                ltac:(simpl; lia) Ha T1 T2).
  pose proof (py_tier_mono (fun p => - snd p) a1 a2 th tm (15, -10) (5, -5) (-5, 5)
                (gd1, rd1) (gd2, rd2) ltac:(simpl; lia) Ha T1 T2).
  pose proof (py_tier_mono id b1 b2 10 5 10 5 0 gq1 gq2 ltac:(unfold id; lia) Hb Q1 Q2).
  pose proof (py_tier_mono id e1 e2 60 30 10 5 0 gw1 gw2 ltac:(unfold id; lia) He W1 W2).
  unfold id in *; simpl in *. lia.
Qed.

Lemma priority_levels_lookup s :
  default 2 (priority_levels !! s) =
    if String.eqb s "ambulance" || String.eqb s "fire_truck" then 1 else 2.
Proof.
  unfold priority_levels. simpl.
  destruct (String.eqb_spec s "ambulance") as [->|N1]; [by rewrite lookup_insert_eq|].
  rewrite lookup_insert_ne by congruence.
  destruct (String.eqb_spec s "fire_truck") as [->|N2]; [by rewrite lookup_insert_eq|].
  rewrite lookup_insert_ne by congruence.
  destruct (String.eqb_spec s "police") as [->|N3]; [by rewrite lookup_insert_eq|].
  by rewrite lookup_insert_ne, lookup_empty by congruence.
Qed.

(** X7: [optimize_signal_timing] with the [emergency_priority] algorithm
    answers with a success dict built from [emergency_data] when it is a
    non-empty dict and from [traffic_data] (or an empty dict) otherwise.
    An unhashable vehicle type yields the default timing, and any other
    vehicle type a preemption plan: priority 1, 60 s of green and 10 s of
    clearance for an ambulance or a fire truck (the default vehicle),
    priority 2, 45 s and 5 s for any other vehicle; exactly one axis gets
    the green: the
    north-south axis when the approach is ["north"] or ["south"] (the
    default), the east-west axis otherwise, and the crossing axis is held
    red for the green plus the clearance. *)
Theorem optimize_emergency_priority_axes gdef rdef webster sid traffic_data emergency_data :
  let data := if dict_truthy emergency_data then default empty emergency_data
              else default empty traffic_data in
  let vt := dict_get data "vehicle_type" (OStr "ambulance") in
  exists t,
    optimize_signal_timing gdef rdef webster sid "emergency_priority"
      traffic_data emergency_data = OptSuccess sid "emergency_priority" t /\
    match t with
    | TCEmergency pg ct ad vt' p _ nsg ewg nsr ewr =>
        vt <> OUnhashable /\ vt' = vt /\ ad = dict_get data "approach_direction" (OStr "north") /\
        ((vt = OStr "ambulance" \/ vt = OStr "fire_truck") /\ p = 1 /\ pg = 60 /\ ct = 10 \/
         ~ (vt = OStr "ambulance" \/ vt = OStr "fire_truck") /\ p = 2 /\ pg = 45 /\ ct = 5) /\
        (is_north_south ad = true /\ nsg = pg /\ ewg = 0 /\ nsr = 0 /\ ewr = pg + ct \/
         is_north_south ad = false /\ nsg = 0 /\ ewg = pg /\ nsr = pg + ct /\ ewr = 0)
    | t' => vt = OUnhashable /\ t' = get_default_timing gdef rdef
    end.
Proof.
  intros data vt. eexists. split; [reflexivity|]. simpl. fold data.
  unfold emergency_priority_algorithm. fold vt.
  set (ad := dict_get data "approach_direction" (OStr "north")).
  assert (Hp : priority_of vt = None /\ vt = OUnhashable \/
               exists p, priority_of vt = Some p /\
                 ((vt = OStr "ambulance" \/ vt = OStr "fire_truck") /\ p = 1 \/
                  ~ (vt = OStr "ambulance" \/ vt = OStr "fire_truck") /\ p = 2)).
  { destruct vt as [n|s| |]; simpl.
    - right. eexists. split; [reflexivity|]. right. split; [|done]. intros [|]; discriminate.
    - right. eexists. split; [reflexivity|]. rewrite priority_levels_lookup.
      destruct (String.eqb_spec s "ambulance") as [->|N1]; [left; auto|].
      destruct (String.eqb_spec s "fire_truck") as [->|N2]; [left; auto|].
      simpl. right. split; [|done]. intros [H|H]; injection H; auto.
    - right. eexists. split; [reflexivity|]. right. split; [|done]. intros [|]; discriminate.
    - by left. }
  destruct Hp as [[-> ->] | (p & Hpr & Hp)]; [done|].
  assert (Hnu : vt <> OUnhashable) by (intros Hu; rewrite Hu in Hpr; discriminate).
  rewrite Hpr.
  destruct Hp as [[Hv ->] | [Hv ->]]; simpl;
    destruct (is_north_south ad) eqn:Ens;
    (split; [exact Hnu|]); (split; [done|]); (split; [done|]);
    (split; [tauto|]); [left|right|left|right]; auto.
Qed.

Section Extras.

Variable eo_dur : Z.
Variable red_dur : Z.
Variable setex_ok : string -> Z -> bool.

(** *** Status queries *)

Lemma status_zero_iff x :
  Z.max 0 (x / us_per_s) = 0 <-> x < us_per_s.
Proof.
  unfold us_per_s. split; intros H.
  - destruct (Z.lt_ge_cases x 1000000) as [|Hge]; [done|].
    pose proof (Z.div_le_lower_bound x 1000000 1 ltac:(lia) ltac:(lia)). lia.
  - pose proof (Z.div_lt_upper_bound x 1000000 1 ltac:(lia) ltac:(lia)). lia.
Qed.

(** X1: for a known signal whose phase started at or before [t] with a
    non-negative planned duration, [get_signal_status] reports its id,
    phase and mode, and a remaining time between 0 and the planned
    duration, which is 0 exactly when less than one second of the phase is
    left (in particular whenever the monitor considers the phase
    elapsed). *)
Theorem get_signal_status_remaining t sid states st :
  states !! sid = Some st -> state_start_time st <= t -> 0 <= remaining_time st ->
  exists i,
    get_signal_status t sid states = Success i /\
    si_signal_id i = sid /\ si_current_state i = current_state st /\
    si_is_emergency_override i = is_emergency_override st /\
    0 <= si_remaining_time i <= remaining_time st /\
    (si_remaining_time i = 0 <->
       (remaining_time st - 1) * us_per_s < t - state_start_time st).
Proof.
  intros Hs Ht Hr. unfold get_signal_status. rewrite Hs.
  eexists; split; [reflexivity|]; simpl.
  split; [done|]; split; [done|]; split; [done|]; split.
  - split; [unfold status_remaining_time; lia|]. by apply status_remaining_le.
  - unfold status_remaining_time. rewrite status_zero_iff. unfold us_per_s. lia.
Qed.

(** X2: as time passes, the remaining time [get_signal_status] reports
    for a signal whose record is unchanged never increases, and it drops
    by at most one second more than the whole seconds elapsed. *)
Theorem get_signal_status_countdown t1 t2 sid states i1 i2 :
  get_signal_status t1 sid states = Success i1 ->
  get_signal_status t2 sid states = Success i2 ->
  t1 <= t2 ->
  si_remaining_time i2 <= si_remaining_time i1 <=
    si_remaining_time i2 + (t2 - t1) / us_per_s + 1.
Proof.
  unfold get_signal_status. destruct (states !! sid) as [st|]; [|discriminate].
  intros H1 H2 Ht. injection H1 as <-. injection H2 as <-. simpl.
  unfold status_remaining_time, us_per_s.
  set (a := remaining_time st * 1000000 - (t1 - state_start_time st)).
  replace (remaining_time st * 1000000 - (t2 - state_start_time st))
    with (a - (t2 - t1)) by (unfold a; lia).
  pose proof (Z.div_mod a 1000000 ltac:(lia)).
  pose proof (Z.mod_pos_bound a 1000000 ltac:(lia)).
  pose proof (Z.div_mod (a - (t2 - t1)) 1000000 ltac:(lia)).
  pose proof (Z.mod_pos_bound (a - (t2 - t1)) 1000000 ltac:(lia)).
  pose proof (Z.div_mod (t2 - t1) 1000000 ltac:(lia)).
  pose proof (Z.mod_pos_bound (t2 - t1) 1000000 ltac:(lia)).
  lia.
Qed.

(** *** The dashboard counters of [get_all_signals_status] *)

Lemma filter_length_perm {A} (f : A -> bool) (l1 l2 : list A) :
  l1 ≡ₚ l2 -> length (List.filter f l1) = length (List.filter f l2).
Proof.
  induction 1 as [|x l1 l2 _ IH|x y l|l1 l2 l3 _ IH1 _ IH2]; simpl.
  - done.
  - destruct (f x); simpl; lia.
  - destruct (f x), (f y); simpl; lia.
  - lia.
Qed.

Lemma override_count_insert m k v :
  (override_count (<[k:=v]> m) +
     match m !! k with
     | Some o => if is_emergency_override o then 1 else 0
     | None => 0
     end = override_count m + if is_emergency_override v then 1 else 0)%nat.
Proof.
  unfold override_count.
  destruct (m !! k) as [o|] eqn:E.
  - rewrite <- insert_delete_eq.
    rewrite (filter_length_perm _ _ _ (map_to_list_insert _ _ _ (lookup_delete_eq m k))).
    rewrite <- (filter_length_perm _ _ _ (map_to_list_delete m k o E)).
    simpl. destruct (is_emergency_override v), (is_emergency_override o); simpl; lia.
  - rewrite (filter_length_perm _ _ _ (map_to_list_insert _ _ _ E)).
    simpl. destruct (is_emergency_override v); simpl; lia.
Qed.

Lemma all_status_active_list t states l :
  (forall kv, kv ∈ l -> states !! kv.1 = Some kv.2) ->
  length (List.filter (fun kv => status_override_flag kv.2)
            (map (fun kv => (kv.1, get_signal_status t kv.1 states)) l)) =
  length (List.filter (fun kv => is_emergency_override kv.2) l).
Proof.
  induction l as [|[k v] l IH]; intros Hl; [done|]. simpl.
  pose proof (Hl (k, v) ltac:(left)) as Hk. simpl in Hk.
  unfold get_signal_status at 1. rewrite Hk. simpl.
  assert (IH' : length (List.filter (fun kv => status_override_flag kv.2)
            (map (fun kv => (kv.1, get_signal_status t kv.1 states)) l)) =
          length (List.filter (fun kv => is_emergency_override kv.2) l)).
  { apply IH. intros kv Hkv. apply Hl. by right. }
  destruct (is_emergency_override v); simpl; [f_equal|]; exact IH'.
Qed.

Lemma all_status_counts t states :
  as_total_signals (get_all_signals_status t states) = size states /\
  as_emergency_overrides_active (get_all_signals_status t states) = override_count states.
Proof.
  unfold get_all_signals_status. simpl. split.
  - by rewrite length_map, length_map_to_list.
  - apply all_status_active_list. intros [k v] Hkv. by apply elem_of_map_to_list.
Qed.

Lemma emergency_override_default now sid r states :
  emergency_override eo_dur red_dur now sid None r states =
  emergency_override eo_dur red_dur now sid (Some eo_dur) r states.
Proof. reflexivity. Qed.

Lemma create_override_count now sid states :
  override_count (create_signal_if_not_exists red_dur now sid states) = override_count states.
Proof.
  unfold create_signal_if_not_exists. destruct (states !! sid) eqn:E; [done|].
  pose proof (override_count_insert states sid
                (mkState sid "red" now red_dur false "" (Some (NTTiming default_timing)))) as H.
  rewrite E in H. simpl in H. lia.
Qed.

(** X3: an emergency override raises the dashboard's count of active
    overrides by one when the signal was not already overridden (a missing
    signal included) and leaves it unchanged otherwise; the signal count
    grows by one exactly when the signal was missing. *)
Theorem dashboard_counts_after_override t now sid d r states :
  let states' := snd (emergency_override eo_dur red_dur now sid d r states) in
  as_emergency_overrides_active (get_all_signals_status t states') =
    (as_emergency_overrides_active (get_all_signals_status t states) +
     match states !! sid with
     | Some st => if is_emergency_override st then 0 else 1
     | None => 1
     end)%nat /\
  as_total_signals (get_all_signals_status t states') =
    (as_total_signals (get_all_signals_status t states) +
     match states !! sid with Some _ => 0 | None => 1 end)%nat.
Proof.
  intros states'.
  assert (Hs : states' = <[sid := mkState sid "green" now (default eo_dur d) true r
                          (override_saved_timing red_dur now (states !! sid))]>
                        (create_signal_if_not_exists red_dur now sid states)).
  { unfold states'. destruct d as [d|]; [|rewrite emergency_override_default];
      by rewrite emergency_override_eq. }
  destruct (all_status_counts t states) as [Ht Ha].
  destruct (all_status_counts t states') as [Ht' Ha'].
  rewrite Ht, Ha, Ht', Ha', Hs. clear Ht Ha Ht' Ha' Hs states'.
  pose proof (override_count_insert (create_signal_if_not_exists red_dur now sid states) sid
                (mkState sid "green" now (default eo_dur d) true r
                   (override_saved_timing red_dur now (states !! sid)))) as H.
  rewrite create_override_count, create_lookup_self in H. simpl in H.
  rewrite map_size_insert, create_lookup_self. simpl.
  unfold create_signal_if_not_exists.
  destruct (states !! sid) as [st|] eqn:E; simpl in *.
  - unfold create_signal_if_not_exists in H. rewrite E in H.
    split; [destruct (is_emergency_override st); lia | lia].
  - unfold create_signal_if_not_exists in H. rewrite E in H.
    rewrite map_size_insert, E. simpl. split; lia.
Qed.

(** X4: restoring a signal that is in emergency override lowers the
    dashboard's count of active overrides by exactly one, whichever branch
    of [restore_normal_operation] runs, and keeps the signal count. *)
Theorem dashboard_counts_after_restore t now sid states st :
  states !! sid = Some st -> is_emergency_override st = true ->
  let states' := snd (restore_normal_operation red_dur now sid states) in
  (as_emergency_overrides_active (get_all_signals_status t states') + 1 =
     as_emergency_overrides_active (get_all_signals_status t states))%nat /\
  as_total_signals (get_all_signals_status t states') =
    as_total_signals (get_all_signals_status t states).
Proof.
  intros E Hov states'.
  destruct (all_status_counts t states) as [Ht Ha].
  destruct (all_status_counts t states') as [Ht' Ha'].
  rewrite Ht, Ha, Ht', Ha'. unfold states', restore_normal_operation.
  rewrite E, Hov. simpl.
  destruct (normal_timing st); simpl;
    match goal with
    | |- context [<[sid := ?v]> states] =>
        pose proof (override_count_insert states sid v) as H;
        rewrite E, Hov in H; simpl in H;
        rewrite map_size_insert, E; simpl; split; lia
    end.
Qed.

(** *** Which signals the controller holds *)

Lemma gw_refl L s : grows_within L s s.
Proof. split; auto. Qed.

Lemma gw_trans L1 L2 s1 s2 s3 :
  grows_within L1 s1 s2 -> grows_within L2 s2 s3 -> grows_within (L1 ++ L2) s1 s3.
Proof.
  intros [A1 B1] [A2 B2]. split; [auto|]. intros k Hk.
  destruct (B2 k Hk) as [Hk2|Hk2]; [destruct (B1 k Hk2) as [|Hk1]; [by left|]|];
    right; apply elem_of_app; auto.
Qed.

Lemma gw_weaken L L' s s' :
  (forall k, k ∈ L -> k ∈ L') -> grows_within L s s' -> grows_within L' s s'.
Proof. intros HL [A B]. split; [done|]. intros k Hk. destruct (B k Hk); auto. Qed.

Lemma gw_insert L s s1 k v :
  grows_within L s s1 -> k ∈ L -> grows_within L s (<[k:=v]> s1).
Proof.
  intros [A B] Hk. split.
  - intros j Hj. destruct (decide (k = j)) as [<-|Hne].
    + rewrite lookup_insert_eq. by eexists.
    + rewrite lookup_insert_ne by done. auto.
  - intros j Hj. destruct (decide (k = j)) as [<-|Hne]; [by right|].
    rewrite lookup_insert_ne in Hj by done. auto.
Qed.

Lemma create_gw now sid s : grows_within [sid] s (create_signal_if_not_exists red_dur now sid s).
Proof.
  unfold create_signal_if_not_exists. destruct (s !! sid); [apply gw_refl|].
  apply gw_insert; [apply gw_refl|]. by left.
Qed.

Lemma override_states now sid d r s :
  snd (emergency_override eo_dur red_dur now sid d r s) =
  <[sid := mkState sid "green" now (default eo_dur d) true r
             (override_saved_timing red_dur now (s !! sid))]>
    (create_signal_if_not_exists red_dur now sid s).
Proof.
  destruct d as [d|]; [|rewrite emergency_override_default]; by rewrite emergency_override_eq.
Qed.

Lemma override_gw now sid d r s :
  grows_within [sid] s (snd (emergency_override eo_dur red_dur now sid d r s)).
Proof. rewrite override_states. apply gw_insert; [apply create_gw|by left]. Qed.

Lemma restore_gw now sid s :
  grows_within [sid] s (snd (restore_normal_operation red_dur now sid s)).
Proof.
  unfold restore_normal_operation. destruct (s !! sid) as [cur|]; [|apply gw_refl].
  destruct (negb (is_emergency_override cur)); [apply gw_refl|].
  destruct (normal_timing cur); (apply gw_insert; [apply gw_refl|by left]).
Qed.

Lemma update_timing_gw now sid cfg s :
  grows_within [sid] s (snd (update_timing red_dur now sid cfg s)).
Proof.
  unfold update_timing. destruct (validate_fields _ _); [apply create_gw|].
  destruct (_ !! sid); [|apply create_gw].
  apply gw_insert; [apply create_gw|by left].
Qed.

Lemma tick_gw ct clk sid s : grows_within [sid] s (tick_signal red_dur ct clk sid s).
Proof.
  unfold tick_signal. destruct (s !! sid) as [st|]; [|apply gw_refl].
  destruct (_ <=? _); [|apply gw_refl].
  destruct (is_emergency_override st); [apply restore_gw|].
  unfold transition_to_next_state. destruct (s !! sid) as [cur|]; [|apply gw_refl].
  destruct (timing_of _); [|apply gw_refl].
  destruct (if String.eqb _ "red" then _ else _).
  apply gw_insert; [apply gw_refl|by left].
Qed.

Lemma plan_loop_gw start interval duration i sigs s :
  grows_within sigs s (snd (plan_loop red_dur start interval duration i sigs s)) /\
  forall p, fst (plan_loop red_dur start interval duration i sigs s) = Success p ->
    forall e, e ∈ p -> pe_signal_id e ∈ sigs.
Proof.
  revert i s. induction sigs as [|sid rest IH]; intros i s; simpl.
  - split; [apply gw_refl|]. intros p Hp e He. injection Hp as <-. by apply elem_of_nil in He.
  - destruct (add_seconds start (i * interval)) as [gst|].
    + destruct (IH (i + 1) (create_signal_if_not_exists red_dur start sid s)) as [G P].
      destruct (plan_loop red_dur start interval duration (i + 1) rest
                  (create_signal_if_not_exists red_dur start sid s)) as [r s2]. simpl in *.
      split.
      * apply (gw_weaken ([sid] ++ rest)); [done|]. eapply gw_trans; [apply create_gw|done].
      * intros p Hp e He. destruct r as [p'|]; [|discriminate]. injection Hp as <-.
        destruct (0 <? _); [apply elem_of_cons in He as [->|He]; [by left|]|];
          right; by apply (P p').
    + simpl. split; [|discriminate].
      apply (gw_weaken [sid]); [|apply create_gw]. intros k Hk.
      apply list_elem_of_singleton in Hk as ->. by left.
Qed.

Lemma execute_plan_gw now n plan s :
  grows_within (map pe_signal_id plan) s (execute_plan eo_dur red_dur setex_ok now n plan s).2.
Proof.
  revert s. induction plan as [|e rest IH]; intros s; simpl; [apply gw_refl|].
  set (r1 := if pe_delay_from_start e =? 0 then _ else _).
  assert (G1 : grows_within [pe_signal_id e] s r1.2).
  { unfold r1. destruct (_ =? 0).
    - destruct (emergency_override _ _ _ _ _ _ _) as [res st'] eqn:E. simpl.
      pose proof (override_gw now (pe_signal_id e) (Some (pe_green_duration e))
                    (corridor_reason n) s) as G. by rewrite E in G.
    - apply gw_refl. }
  destruct r1 as [ok s1]. simpl in G1.
  specialize (IH s1).
  destruct (execute_plan eo_dur red_dur setex_ok now n rest s1) as [[succ failed] s2].
  simpl in *.
  assert (G : grows_within ([pe_signal_id e] ++ map pe_signal_id rest) s s2)
    by (eapply gw_trans; eauto).
  destruct ok; exact G.
Qed.

Lemma coordinate_gw now sigs duration s :
  grows_within sigs s (snd (coordinate_green_corridor eo_dur red_dur setex_ok now sigs duration s)).
Proof.
  unfold coordinate_green_corridor. destruct sigs as [|sid0 rest]; [apply gw_refl|].
  set (sigs := sid0 :: rest).
  set (interval := Z.max 10 (duration / Z.of_nat (length sigs))).
  destruct (plan_loop_gw now interval duration 0 sigs s) as [G P].
  destruct (plan_loop red_dur now interval duration 0 sigs s) as [[plan|] s1]; simpl in *;
    [|exact G].
  pose proof (execute_plan_gw now (S (length rest)) plan s1) as G2.
  destruct (execute_plan eo_dur red_dur setex_ok now (S (length rest)) plan s1)
    as [[succ failed] s2].
  simpl in G2.
  assert (G3 : grows_within sigs s s2).
  { apply (gw_weaken (sigs ++ map pe_signal_id plan)).
    - intros k Hk. apply elem_of_app in Hk as [Hk|Hk]; [done|].
      apply list_elem_of_fmap in Hk as (e & -> & He). by apply (P plan).
    - eapply gw_trans; eauto. }
  destruct (add_seconds now duration); exact G3.
Qed.

Lemma step_gw op s : grows_within (op_signals op) s (step eo_dur red_dur setex_ok op s).
Proof.
  destruct op; simpl;
    [apply create_gw|apply override_gw|apply restore_gw|apply update_timing_gw|
     apply tick_gw|apply coordinate_gw].
Qed.

Lemma run_gw ops s :
  grows_within (concat (map op_signals ops)) s (run eo_dur red_dur setex_ok ops s).
Proof.
  revert s. induction ops as [|op rest IH]; intros s; simpl; [apply gw_refl|].
  eapply gw_trans; [apply step_gw|apply IH].
Qed.

(** X8: no operation ever removes a signal from [self.signal_states], and
    the only signals that appear are the ones the operations were given:
    after any sequence of creations, overrides, restorations, timing
    updates, monitor ticks and corridor coordinations, the signal ids are
    the initial ones plus some of the ids passed to those calls. *)
Theorem run_signal_ids ops states :
  dom states ⊆ dom (run eo_dur red_dur setex_ok ops states) /\
  dom (run eo_dur red_dur setex_ok ops states) ⊆
    dom states ∪ list_to_set (concat (map op_signals ops)).
Proof.
  destruct (run_gw ops states) as [A B]. split; intros k Hk.
  - apply elem_of_dom. apply A. by apply elem_of_dom.
  - apply elem_of_dom in Hk. apply elem_of_union.
    destruct (B k Hk) as [H|H]; [left; by apply elem_of_dom|right; by apply elem_of_list_to_set].
Qed.

(** *** Repeated overrides *)

Lemma override_saved_timing_some now old :
  (forall st, old = Some st -> is_emergency_override st = true -> normal_timing st <> None) ->
  override_saved_timing red_dur now old <> None.
Proof.
  destruct old as [st|]; simpl; [|discriminate]. intros H.
  destruct (is_emergency_override st) eqn:E; [by apply H|discriminate].
Qed.

(** X9: overrides do not stack.  A second [emergency_override] of a
    signal keeps the pre-override state the first one saved (the new
    duration and reason replace the old ones), and a single
    [restore_normal_operation] then ends the override: the signal goes to
    yellow in normal mode and the call succeeds. *)
Theorem override_twice_then_restore now1 now2 now3 sid d1 d2 r1 r2 states :
  states_ok states ->
  let s1 := snd (emergency_override eo_dur red_dur now1 sid d1 r1 states) in
  let s2 := snd (emergency_override eo_dur red_dur now2 sid d2 r2 s1) in
  s2 !! sid = Some (mkState sid "green" now2 (default eo_dur d2) true r2
                      (override_saved_timing red_dur now1 (states !! sid))) /\
  restore_normal_operation red_dur now3 sid s2 =
    (Success (mkRestoreInfo sid "yellow" now3),
     <[sid := mkState sid "yellow" now3 (yellow_duration default_timing) false "" None]> s2).
Proof.
  intros Hok s1 s2.
  assert (E1 : s1 !! sid = Some (mkState sid "green" now1 (default eo_dur d1) true r1
                                   (override_saved_timing red_dur now1 (states !! sid)))).
  { unfold s1. rewrite override_states. apply lookup_insert_eq. }
  assert (E2 : s2 !! sid = Some (mkState sid "green" now2 (default eo_dur d2) true r2
                                   (override_saved_timing red_dur now1 (states !! sid)))).
  { unfold s2. rewrite override_states, E1. apply lookup_insert_eq. }
  split; [exact E2|].
  unfold restore_normal_operation. rewrite E2. simpl.
  destruct (override_saved_timing red_dur now1 (states !! sid)) eqn:Hnt; [done|].
  exfalso. revert Hnt. apply override_saved_timing_some.
  intros st Hst Hov. destruct (Hok sid st Hst) as [_ [_ H]]. auto.
Qed.

(** *** The monitor loop *)

Lemma restore_lookup_other now k sid s :
  k <> sid -> snd (restore_normal_operation red_dur now k s) !! sid = s !! sid.
Proof.
  intros Hne. unfold restore_normal_operation. destruct (s !! k) as [cur|]; [|done].
  destruct (negb _); [done|].
  destruct (normal_timing cur); simpl; by rewrite lookup_insert_ne.
Qed.

Lemma tick_lookup_other ct clk k sid s :
  k <> sid -> tick_signal red_dur ct clk k s !! sid = s !! sid.
Proof.
  intros Hne. unfold tick_signal. destruct (s !! k) as [st|]; [|done].
  destruct (_ <=? _); [|done].
  destruct (is_emergency_override st); [by apply restore_lookup_other|].
  unfold transition_to_next_state. destruct (s !! k) as [cur|]; [|done].
  destruct (timing_of _); [|done].
  destruct (if String.eqb _ "red" then _ else _). by rewrite lookup_insert_ne.
Qed.

Lemma monitor_lookup_other ct clk sids sid s :
  ~ In sid sids -> monitor_iteration red_dur ct clk sids s !! sid = s !! sid.
Proof.
  unfold monitor_iteration. revert s.
  induction sids as [|k rest IH]; intros s Hn; simpl; [done|].
  simpl in Hn. rewrite IH by tauto. apply tick_lookup_other. intros ->. apply Hn. by left.
Qed.

Lemma monitor_ok ct clk sids s :
  states_ok s -> states_ok (monitor_iteration red_dur ct clk sids s).
Proof.
  unfold monitor_iteration. revert s.
  induction sids as [|k rest IH]; intros s Hs; simpl; [done|].
  apply IH. by apply (tick_ok eo_dur red_dur setex_ok).
Qed.

(** A normal-mode tick that is due, in closed form. *)
Lemma tick_due_normal ct clk sid s st t :
  s !! sid = Some st -> is_emergency_override st = false ->
  timing_of (normal_timing st) = Some t ->
  remaining_time st * us_per_s <= ct - state_start_time st ->
  tick_signal red_dur ct clk sid s =
    <[sid := mkState sid (next_phase (current_state st)) clk
               (phase_duration t (next_phase (current_state st))) false ""
               (normal_timing st)]> s.
Proof.
  intros E Hov Ht Hdue. unfold tick_signal. rewrite E.
  replace (_ <=? _) with true by lia. rewrite Hov.
  unfold transition_to_next_state. rewrite E, Ht. unfold next_phase, phase_duration.
  destruct (String.eqb (current_state st) "red"); [done|].
  destruct (String.eqb (current_state st) "green"); done.
Qed.

(** X10: one pass of the monitor loop over distinct signal ids handles
    every listed signal whose phase has elapsed at the pass's
    [current_time]: an expired override is ended (the signal turns yellow,
    in normal mode) and a normal signal moves to the next phase of its
    cycle, in both cases started at the clock reading of that
    transition. *)
Theorem monitor_iteration_due ct clk sids states sid st :
  NoDup sids -> states_ok states -> In sid sids -> states !! sid = Some st ->
  remaining_time st * us_per_s <= ct - state_start_time st ->
  exists st',
    monitor_iteration red_dur ct clk sids states !! sid = Some st' /\
    is_emergency_override st' = false /\ state_start_time st' = clk /\
    current_state st' =
      (if is_emergency_override st then "yellow" else next_phase (current_state st))%string.
Proof.
  intros Hnd Hok Hin E Hdue.
  apply in_split in Hin as (l1 & l2 & ->).
  apply NoDup_ListNoDup, NoDup_remove_2 in Hnd. rewrite in_app_iff in Hnd.
  unfold monitor_iteration. rewrite fold_left_app. simpl.
  set (s1 := fold_left (fun st0 sid0 => tick_signal red_dur ct clk sid0 st0) l1 states).
  assert (E1 : s1 !! sid = Some st).
  { unfold s1. fold (monitor_iteration red_dur ct clk l1 states).
    rewrite monitor_lookup_other; [done|tauto]. }
  assert (Ok1 : states_ok s1) by (apply monitor_ok; done).
  fold (monitor_iteration red_dur ct clk l2 (tick_signal red_dur ct clk sid s1)).
  rewrite monitor_lookup_other by tauto.
  destruct (Ok1 sid st E1) as [_ [Hn Ho]].
  destruct (is_emergency_override st) eqn:Hov.
  - unfold tick_signal. rewrite E1. replace (_ <=? _) with true by lia. rewrite Hov.
    unfold restore_normal_operation. rewrite E1, Hov. simpl.
    destruct (normal_timing st); [|by destruct Ho].
    eexists. split; [apply lookup_insert_eq|]. done.
  - destruct (timing_of (normal_timing st)) as [t|] eqn:Ht; [|by destruct Hn].
    rewrite (tick_due_normal ct clk sid s1 st t E1 Hov Ht Hdue).
    eexists. split; [apply lookup_insert_eq|]. done.
Qed.

(** X11: a pass of the monitor loop leaves a signal's record unchanged
    when the signal is not among the ids it visits, or when its phase has
    not elapsed at the pass's [current_time]. *)
Theorem monitor_iteration_not_due ct clk sids states sid st :
  states !! sid = Some st ->
  ~ In sid sids \/ ct - state_start_time st < remaining_time st * us_per_s ->
  monitor_iteration red_dur ct clk sids states !! sid = Some st.
Proof.
  intros E [Hn|Hlt]; [by rewrite monitor_lookup_other|].
  unfold monitor_iteration. revert states E.
  induction sids as [|k rest IH]; intros s E; simpl; [done|].
  apply IH. destruct (decide (k = sid)) as [->|Hne].
  - unfold tick_signal. rewrite E. by replace (_ <=? _) with false by lia.
  - by rewrite tick_lookup_other.
Qed.

(** X12: a signal in normal mode at red, ticked each time its phase
    elapses, goes through green and yellow with the durations of its own
    timing and is back at red after its remaining red time plus the green
    and yellow durations, with the same timing and a full red phase
    ahead. *)
Theorem normal_cycle_ticks sid states st t :
  states !! sid = Some st -> is_emergency_override st = false ->
  current_state st = "red"%string -> timing_of (normal_timing st) = Some t ->
  let t1 := state_start_time st + remaining_time st * us_per_s in
  let t2 := t1 + green_duration t * us_per_s in
  let t3 := t2 + yellow_duration t * us_per_s in
  tick_signal red_dur t3 t3 sid
    (tick_signal red_dur t2 t2 sid (tick_signal red_dur t1 t1 sid states)) !! sid =
  Some (mkState sid "red" t3 (red_duration t) false "" (normal_timing st)).
Proof.
  intros E Hov Hred Ht t1 t2 t3.
  rewrite (tick_due_normal t1 t1 sid states st t E Hov Ht) by (unfold t1; lia).
  rewrite Hred.
  replace (next_phase "red") with "green"%string by reflexivity.
  replace (phase_duration t "green") with (green_duration t) by reflexivity.
  rewrite (tick_due_normal t2 t2 sid _ _ t (lookup_insert_eq _ _ _))
    by (simpl; try done; unfold t2; lia).
  simpl.
  replace (next_phase "green") with "yellow"%string by reflexivity.
  replace (phase_duration t "yellow") with (yellow_duration t) by reflexivity.
  rewrite (tick_due_normal t3 t3 sid _ _ t (lookup_insert_eq _ _ _))
    by (simpl; try done; unfold t3; lia).
  simpl.
  replace (next_phase "yellow") with "red"%string by reflexivity.
  replace (phase_duration t "red") with (red_duration t) by reflexivity.
  apply lookup_insert_eq.
Qed.

(** *** Timing updates *)

Lemma validate_fields_ok fields cfg :
  validate_fields fields cfg = None ->
  forall f, In f fields -> exists v z, cfg !! f = Some v /\ py_int_value v = Some z /\ 0 < z.
Proof.
  induction fields as [|f0 rest IH]; simpl; intros H f Hf; [done|].
  destruct (cfg !! f0) as [v0|] eqn:E0; [|discriminate].
  destruct (py_int_value v0) as [z|] eqn:Ez; [|discriminate].
  destruct (z <=? 0) eqn:Hz; [discriminate|].
  destruct Hf as [<-|Hf]; [|by apply IH].
  exists v0, z. repeat split; [done|done|lia].
Qed.

Lemma validate_fields_none fields cfg :
  (forall f, In f fields -> exists v, cfg !! f = Some v /\ positive_int v) ->
  validate_fields fields cfg = None.
Proof.
  induction fields as [|f0 rest IH]; simpl; intros H; [done|].
  destruct (H f0 (or_introl eq_refl)) as (v & E & P). rewrite E.
  unfold positive_int in P. destruct (py_int_value v) as [z|]; [|done].
  destruct (Z.leb_spec z 0); [lia|]. apply IH. intros f Hf. apply H. by right.
Qed.

Lemma cfg_int_positive cfg f v :
  cfg !! f = Some v -> positive_int v ->
  py_int_value <$> cfg !! f = Some (Some (cfg_int cfg f)) /\ 0 < cfg_int cfg f.
Proof.
  intros E P. unfold cfg_int, positive_int in *. rewrite E in *. simpl.
  destruct (py_int_value v); [done|contradiction].
Qed.

(** X13: a successful [update_timing] of a signal in normal mode does not
    cut the current phase short: the phase, its start and its planned
    duration are kept, and the new timing is installed; when the phase
    elapses, the monitor moves the signal to the next phase with that
    phase's duration from the new timing. *)
Theorem update_timing_next_phase now sid cfg states st t ct clk :
  states !! sid = Some st -> is_emergency_override st = false ->
  fst (update_timing red_dur now sid cfg states) = Success t ->
  remaining_time st * us_per_s <= ct - state_start_time st ->
  (exists st', snd (update_timing red_dur now sid cfg states) !! sid = Some st' /\
     current_state st' = current_state st /\
     state_start_time st' = state_start_time st /\
     remaining_time st' = remaining_time st /\
     normal_timing st' = Some (NTTiming t)) /\
  tick_signal red_dur ct clk sid (snd (update_timing red_dur now sid cfg states)) !! sid =
    Some (mkState sid (next_phase (current_state st)) clk
            (phase_duration t (next_phase (current_state st))) false ""
            (Some (NTTiming t))).
Proof.
  intros E Hov Hres Hdue. revert Hres. unfold update_timing.
  rewrite (create_existing red_dur now sid states st E).
  destruct (validate_fields required_fields cfg); [discriminate|]. rewrite E. simpl.
  intros Hres. injection Hres as Ht. rewrite Ht.
  set (st' := mkState _ _ _ _ _ _ _).
  split.
  - exists st'. split; [apply lookup_insert_eq|]. done.
  - rewrite (tick_due_normal ct clk sid _ st' t (lookup_insert_eq _ _ _)); simpl; try done.
    apply lookup_insert_eq.
Qed.

(** X14: [update_timing] accepts every configuration whose three fields
    each hold an [int] (a [bool] counts as one) greater than 0, whatever
    other keys it has: the call succeeds, the installed timing holds exactly
    those three values with their sum as [cycle_time], it becomes the
    signal's [normal_timing], and no other signal is touched.  With C9,
    validation passes exactly on such configurations. *)
Theorem update_timing_accepts_valid now sid cfg states :
  (forall f, In f required_fields -> exists v, cfg !! f = Some v /\ positive_int v) ->
  exists t st,
    fst (update_timing red_dur now sid cfg states) = Success t /\
    snd (update_timing red_dur now sid cfg states) !! sid = Some st /\
    normal_timing st = Some (NTTiming t) /\
    py_int_value <$> cfg !! "red_duration"%string = Some (Some (red_duration t)) /\
    py_int_value <$> cfg !! "yellow_duration"%string = Some (Some (yellow_duration t)) /\
    py_int_value <$> cfg !! "green_duration"%string = Some (Some (green_duration t)) /\
    timing_positive t /\
    cycle_time t = red_duration t + yellow_duration t + green_duration t /\
    (forall k, k <> sid -> snd (update_timing red_dur now sid cfg states) !! k = states !! k).
Proof.
  intros H. unfold update_timing. rewrite (validate_fields_none _ _ H).
  rewrite create_lookup_self. simpl.
  destruct (H "red_duration"%string ltac:(simpl; auto)) as (vr & Er & Pr).
  destruct (H "yellow_duration"%string ltac:(simpl; auto)) as (vy & Ey & Py).
  destruct (H "green_duration"%string ltac:(simpl; auto)) as (vg & Eg & Pg).
  destruct (cfg_int_positive _ _ _ Er Pr) as [Vr Zr].
  destruct (cfg_int_positive _ _ _ Ey Py) as [Vy Zy].
  destruct (cfg_int_positive _ _ _ Eg Pg) as [Vg Zg].
  eexists _, _. split; [reflexivity|]. split; [apply lookup_insert_eq|].
  split; [reflexivity|]. simpl.
  split; [exact Vr|]. split; [exact Vy|]. split; [exact Vg|].
  split; [unfold timing_positive; simpl; lia|]. split; [reflexivity|].
  intros k Hk. rewrite lookup_insert_ne by congruence. by apply create_lookup_other.
Qed.

End Extras.

(** ** Witnesses of the further properties *)

(** The clock-tower signal of [init2026]: red for 45 s from [t2026]. *)
Lemma get_signal_status_remaining_witness :
  let st := mkState "clock_tower" "red" t2026 45 false ""
              (Some (NTTiming default_timing)) in
  let t := t2026 + 50000000 in
  (init2026 !! "clock_tower" = Some st /\ state_start_time st <= t /\
   0 <= remaining_time st) /\
  exists i, get_signal_status t "clock_tower" init2026 = Success i /\
            si_remaining_time i = 0.
Proof.
  intros st t.
  assert (E : init2026 !! "clock_tower" = Some st) by (vm_compute; reflexivity).
  split; [split; [exact E|]; unfold st, t; simpl; lia|].
  destruct (get_signal_status_remaining t "clock_tower" init2026 st E
              ltac:(unfold st, t; simpl; lia) ltac:(unfold st; simpl; lia))
    as (i & Hi & _ & _ & _ & _ & Hz).
  exists i. split; [exact Hi|]. apply Hz. unfold st, t, us_per_s. simpl. lia.
Defined.

Lemma get_signal_status_countdown_witness :
  let i1 := mkStatus "clock_tower" "red" 35 false "" t2026 in
  let i2 := mkStatus "clock_tower" "red" 25 false "" t2026 in
  (get_signal_status (t2026 + 10000000) "clock_tower" init2026 = Success i1 /\
   get_signal_status (t2026 + 20000000) "clock_tower" init2026 = Success i2 /\
   t2026 + 10000000 <= t2026 + 20000000) /\
  si_remaining_time i2 <= si_remaining_time i1 <=
    si_remaining_time i2 + (t2026 + 20000000 - (t2026 + 10000000)) / us_per_s + 1.
Proof.
  intros i1 i2.
  assert (H1 : get_signal_status (t2026 + 10000000) "clock_tower" init2026 = Success i1)
    by (vm_compute; reflexivity).
  assert (H2 : get_signal_status (t2026 + 20000000) "clock_tower" init2026 = Success i2)
    by (vm_compute; reflexivity).
  split; [split; [exact H1|split; [exact H2|unfold t2026; lia]]|].
  exact (get_signal_status_countdown _ _ _ _ i1 i2 H1 H2 ltac:(unfold t2026; lia)).
Defined.

Lemma dashboard_counts_after_restore_witness :
  let st := mkState "clock_tower" "green" t2026 60 true "ambulance"
              (Some (NTSnapshot (mkSnapshot "red" 45 t2026))) in
  (overridden2026 !! "clock_tower" = Some st /\ is_emergency_override st = true) /\
  let states' := snd (restore_normal_operation 45 (t2026 + 60000000) "clock_tower"
                        overridden2026) in
  (as_emergency_overrides_active (get_all_signals_status (t2026 + 60000000) states') + 1 =
     as_emergency_overrides_active (get_all_signals_status (t2026 + 60000000) overridden2026))%nat /\
  as_total_signals (get_all_signals_status (t2026 + 60000000) states') =
    as_total_signals (get_all_signals_status (t2026 + 60000000) overridden2026).
Proof.
  intros st.
  assert (E : overridden2026 !! "clock_tower" = Some st) by (vm_compute; reflexivity).
  split; [split; [exact E|reflexivity]|].
  exact (dashboard_counts_after_restore 45 (t2026 + 60000000) (t2026 + 60000000)
           "clock_tower" overridden2026 st E eq_refl).
Defined.

Lemma adaptive_timing_monotone_witness :
  (adaptive_algorithm 30 45 "clock_tower" empty =
     TCAdaptive 25 50 5 80 (ONum (NumFin (1 # 2))) (ONum (NumFin 0)) (ONum (NumFin 0)) /\
   adaptive_algorithm 30 45 "clock_tower" traffic_heavy =
     TCAdaptive 60 35 5 100 (ONum (NumFin (9 # 10))) (ONum (NumFin 12)) (ONum (NumFin 40)) /\
   py_le (ONum (NumFin (1 # 2))) (ONum (NumFin (9 # 10))) = true /\
   py_le (ONum (NumFin 0)) (ONum (NumFin 12)) = true /\
   py_le (ONum (NumFin 0)) (ONum (NumFin 40)) = true) /\
  25 <= 60 /\ 35 <= 50.
Proof.
  assert (H1 : adaptive_algorithm 30 45 "clock_tower" empty =
     TCAdaptive 25 50 5 80 (ONum (NumFin (1 # 2))) (ONum (NumFin 0)) (ONum (NumFin 0)))
    by (vm_compute; reflexivity).
  assert (H2 : adaptive_algorithm 30 45 "clock_tower" traffic_heavy =
     TCAdaptive 60 35 5 100 (ONum (NumFin (9 # 10))) (ONum (NumFin 12)) (ONum (NumFin 40)))
    by (vm_compute; reflexivity).
  split; [repeat split; (exact H1 || exact H2 || reflexivity)|].
  exact (adaptive_timing_monotone 30 45 "clock_tower" _ _ _ _ _ _ _ _ _ _ _ _ _ _ _ _
           H1 H2 eq_refl eq_refl eq_refl).
Defined.

Lemma override_twice_then_restore_witness :
  states_ok init2026 /\
  fst (restore_normal_operation 45 (t2026 + 90000000) "clock_tower"
         (snd (emergency_override 60 45 (t2026 + 30000000) "clock_tower" (Some 60)
                 "fire_truck" overridden2026))) =
    Success (mkRestoreInfo "clock_tower" "yellow" (t2026 + 90000000)).
Proof.
  split; [apply (initialize_ok 60 45 redis_up)|].
  destruct (override_twice_then_restore 60 45 t2026 (t2026 + 30000000) (t2026 + 90000000)
              "clock_tower" (Some 60) (Some 60) "ambulance" "fire_truck" init2026
              (initialize_ok 60 45 redis_up t2026)) as [_ H].
  unfold overridden2026. by rewrite H.
Defined.

Lemma monitor_iteration_due_witness :
  let st := mkState "clock_tower" "red" t2026 45 false ""
              (Some (NTTiming default_timing)) in
  (NoDup default_signals /\ states_ok init2026 /\ In "clock_tower"%string default_signals /\
   init2026 !! "clock_tower" = Some st /\
   remaining_time st * us_per_s <= (t2026 + 45000000) - state_start_time st) /\
  exists st',
    monitor_iteration 45 (t2026 + 45000000) (t2026 + 45000001) default_signals init2026
      !! "clock_tower" = Some st' /\
    is_emergency_override st' = false /\ state_start_time st' = t2026 + 45000001 /\
    current_state st' = "green"%string.
Proof.
  intros st.
  assert (Hnd : NoDup default_signals) by (apply (bool_decide_unpack _); vm_compute; reflexivity).
  assert (Hok : states_ok init2026) by apply (initialize_ok 60 45 redis_up).
  assert (Hin : In "clock_tower"%string default_signals) by (simpl; auto).
  assert (E : init2026 !! "clock_tower" = Some st) by (vm_compute; reflexivity).
  assert (Hdue : remaining_time st * us_per_s <= (t2026 + 45000000) - state_start_time st)
    by (unfold st, us_per_s; simpl; lia).
  split; [exact (conj Hnd (conj Hok (conj Hin (conj E Hdue))))|].
  exact (monitor_iteration_due 60 45 redis_up (t2026 + 45000000) (t2026 + 45000001)
           default_signals init2026 "clock_tower" st Hnd Hok Hin E Hdue).
Defined.

Lemma monitor_iteration_not_due_witness :
  let st := mkState "clock_tower" "red" t2026 45 false ""
              (Some (NTTiming default_timing)) in
  (init2026 !! "clock_tower" = Some st /\
   (~ In "clock_tower"%string default_signals \/
    (t2026 + 10000000) - state_start_time st < remaining_time st * us_per_s)) /\
  monitor_iteration 45 (t2026 + 10000000) (t2026 + 10000000) default_signals init2026
    !! "clock_tower" = Some st.
Proof.
  intros st.
  assert (E : init2026 !! "clock_tower" = Some st) by (vm_compute; reflexivity).
  assert (H : ~ In "clock_tower"%string default_signals \/
              (t2026 + 10000000) - state_start_time st < remaining_time st * us_per_s)
    by (right; unfold st, us_per_s; simpl; lia).
  split; [exact (conj E H)|].
  exact (monitor_iteration_not_due 60 45 redis_up (t2026 + 10000000) (t2026 + 10000000)
           default_signals init2026 "clock_tower" st E H).
Defined.

Lemma normal_cycle_ticks_witness :
  let st := mkState "clock_tower" "red" t2026 45 false ""
              (Some (NTTiming default_timing)) in
  (init2026 !! "clock_tower" = Some st /\ is_emergency_override st = false /\
   current_state st = "red"%string /\
   timing_of (normal_timing st) = Some default_timing) /\
  tick_signal 45 (t2026 + 80000000) (t2026 + 80000000) "clock_tower"
    (tick_signal 45 (t2026 + 75000000) (t2026 + 75000000) "clock_tower"
       (tick_signal 45 (t2026 + 45000000) (t2026 + 45000000) "clock_tower" init2026))
    !! "clock_tower" =
  Some (mkState "clock_tower" "red" (t2026 + 80000000) 45 false ""
          (Some (NTTiming default_timing))).
Proof.
  intros st.
  assert (E : init2026 !! "clock_tower" = Some st) by (vm_compute; reflexivity).
  split; [repeat split; (exact E || reflexivity)|].
  exact (normal_cycle_ticks 45 "clock_tower" init2026 st default_timing E eq_refl eq_refl eq_refl).
Defined.

Lemma update_timing_next_phase_witness :
  let st := mkState "clock_tower" "red" t2026 45 false ""
              (Some (NTTiming default_timing)) in
  let t := mkTiming 40 7 20 67 in
  (init2026 !! "clock_tower" = Some st /\ is_emergency_override st = false /\
   fst (update_timing 45 (t2026 + 1000000) "clock_tower" cfg_custom init2026) = Success t /\
   remaining_time st * us_per_s <= (t2026 + 45000000) - state_start_time st) /\
  tick_signal 45 (t2026 + 45000000) (t2026 + 45000000) "clock_tower"
    (snd (update_timing 45 (t2026 + 1000000) "clock_tower" cfg_custom init2026))
    !! "clock_tower" =
  Some (mkState "clock_tower" "green" (t2026 + 45000000) 20 false "" (Some (NTTiming t))).
Proof.
  intros st t.
  assert (E : init2026 !! "clock_tower" = Some st) by (vm_compute; reflexivity).
  assert (Hres : fst (update_timing 45 (t2026 + 1000000) "clock_tower" cfg_custom init2026) =
                 Success t) by (vm_compute; reflexivity).
  assert (Hdue : remaining_time st * us_per_s <= (t2026 + 45000000) - state_start_time st)
    by (unfold st, us_per_s; simpl; lia).
  split; [repeat split; (exact E || exact Hres || exact Hdue || reflexivity)|].
  exact (proj2 (update_timing_next_phase 45 (t2026 + 1000000) "clock_tower" cfg_custom
                  init2026 st t (t2026 + 45000000) (t2026 + 45000000) E eq_refl Hres Hdue)).
Defined.

Lemma update_timing_accepts_valid_witness :
  is_success (fst (update_timing 45 t2026 "clock_tower" cfg_custom init2026)) = true.
Proof.
  destruct (update_timing_accepts_valid 45 t2026 "clock_tower" cfg_custom init2026)
    as (t & st & Ht & _).
  - intros f Hf. simpl in Hf.
    destruct Hf as [<-|[<-|[<-|[]]]].
    + exists (PInt 40). split; [reflexivity|]. unfold positive_int. simpl. lia.
    + exists (PInt 7). split; [reflexivity|]. unfold positive_int. simpl. lia.
    + exists (PInt 20). split; [reflexivity|]. unfold positive_int. simpl. lia.
  - rewrite Ht. reflexivity.
Defined.
